(** * Properties search: search-and-link component

    Shallow embedding of
    [src/frontend/src/components/search/properties-search.tsx]:
    the URL state synchroniser ([updateUrl]) with the
    [URLSearchParams] parsing and serialisation it relies on, the debounced
    search handler, [selectProperty] and its asynchronous continuations,
    [enrichSemanticLinksWithNames], [clearSearch], the assignment cascade
    handlers and [handleAssign].

    Strings are [String.string], i.e. sequences of bytes; a JavaScript
    string is read as its UTF-8 byte sequence, which is what the URL
    serialiser percent-encodes. *)

From Stdlib Require Import String Ascii List Bool Arith NArith Lia.
Import ListNotations.
Open Scope list_scope.
Open Scope string_scope.
Open Scope nat_scope.

(* ------------------------------------------------------------------ *)
(** ** String helpers (the JavaScript builtins the component uses) *)

Module Str.

(** [s.split(sep)] generalised to a character predicate: the pieces
    between separators, in order; [""] splits to [[""]]. *)
Fixpoint split_on (p : ascii -> bool) (s : string) : list string :=
  match s with
  | EmptyString => [EmptyString]
  | String c r =>
      let rest := split_on p r in
      if p c then EmptyString :: rest
      else match rest with
           | h :: t => String c h :: t
           | [] => [String c EmptyString]
           end
  end.

(** [arr.pop()] on the (never empty) result of [split]. *)
Definition pop_last (l : list string) : string := last l EmptyString.

Definition is_char (d : ascii) (c : ascii) : bool := Ascii.eqb c d.

(** [s.includes(ch)] *)
Fixpoint includes_char (d : ascii) (s : string) : bool :=
  match s with
  | EmptyString => false
  | String c r => Ascii.eqb c d || includes_char d r
  end.

(** JavaScript truthiness of a string: only [""] is falsy. *)
Definition truthy (s : string) : bool :=
  match s with EmptyString => false | _ => true end.

(** [a || b] on strings. *)
Definition or_else (a b : string) : string := if truthy a then a else b.

(** White space removed by [String.prototype.trim], single-byte part:
    TAB, LF, VT, FF, CR and SPACE. *)
Definition is_ws (c : ascii) : bool :=
  match nat_of_ascii c with
  | 9 | 10 | 11 | 12 | 13 | 32 => true
  | _ => false
  end.

(** The two-byte UTF-8 white space: U+00A0 (NO-BREAK SPACE). *)
Definition ws2 (c0 c1 : ascii) : bool :=
  (nat_of_ascii c0 =? 194) && (nat_of_ascii c1 =? 160).

(** The three-byte UTF-8 white space and line terminators. *)
Definition ws3 (c0 c1 c2 : ascii) : bool :=
  let a := nat_of_ascii c0 in
  let b := nat_of_ascii c1 in
  let d := nat_of_ascii c2 in
  ((a =? 225) && (b =? 154) && (d =? 128))                        (* U+1680 *)
  || ((a =? 226) && (b =? 128)
      && (((128 <=? d) && (d <=? 138))                            (* U+2000..U+200A *)
          || (d =? 168) || (d =? 169)                             (* U+2028, U+2029 *)
          || (d =? 175)))                                         (* U+202F *)
  || ((a =? 226) && (b =? 129) && (d =? 159))                     (* U+205F *)
  || ((a =? 227) && (b =? 128) && (d =? 128))                     (* U+3000 *)
  || ((a =? 239) && (b =? 187) && (d =? 191)).                    (* U+FEFF *)

(** Leading white space removed, one code point (one to three bytes) at a
    time. *)
Fixpoint trim_start (s : string) : string :=
  match s with
  | EmptyString => EmptyString
  | String c r =>
      if is_ws c then trim_start r
      else match r with
           | String c1 r1 =>
               if ws2 c c1 then trim_start r1
               else match r1 with
                    | String c2 r2 => if ws3 c c1 c2 then trim_start r2 else s
                    | EmptyString => s
                    end
           | EmptyString => s
           end
  end.

Fixpoint rev_str (s : string) (acc : string) : string :=
  match s with
  | EmptyString => acc
  | String c r => rev_str r (String c acc)
  end.

(** [trim_start] on a reversed string: the bytes of each code point come
    last byte first. *)
Fixpoint trim_start_rev (s : string) : string :=
  match s with
  | EmptyString => EmptyString
  | String c r =>
      if is_ws c then trim_start_rev r
      else match r with
           | String c1 r1 =>
               if ws2 c1 c then trim_start_rev r1
               else match r1 with
                    | String c2 r2 => if ws3 c2 c1 c then trim_start_rev r2 else s
                    | EmptyString => s
                    end
           | EmptyString => s
           end
  end.

Definition trim_end (s : string) : string :=
  rev_str (trim_start_rev (rev_str s EmptyString)) EmptyString.

(** [s.trim()] *)
Definition trim (s : string) : string := trim_end (trim_start s).

(** Bytes [trim] can remove: single-byte white space, and the bytes
    (all above 127) of multi-byte white space. *)
Definition removable (c : ascii) : bool := is_ws c || (128 <=? nat_of_ascii c).

(** The white space ([WhiteSpace] and [LineTerminator]) of the ECMAScript
    specification, as code points: what [String.prototype.trim] strips. *)
Definition ws_code_points : list N :=
  [9; 10; 11; 12; 13; 32; 160; 5760; 8192; 8193; 8194; 8195; 8196; 8197;
   8198; 8199; 8200; 8201; 8202; 8232; 8233; 8239; 8287; 12288; 65279]%N.

(** UTF-8 encoding of a code point of the Basic Multilingual Plane. *)
Definition utf8 (cp : N) : string :=
  if (cp <? 128)%N then String (ascii_of_N cp) EmptyString
  else if (cp <? 2048)%N then
    String (ascii_of_N (192 + cp / 64)) (String (ascii_of_N (128 + cp mod 64)) EmptyString)
  else
    String (ascii_of_N (224 + cp / 4096))
      (String (ascii_of_N (128 + (cp / 64) mod 64))
         (String (ascii_of_N (128 + cp mod 64)) EmptyString)).

(** A blank string: empty, or a sequence of white-space code points. *)
Inductive blank : string -> Prop :=
| blank_nil : blank EmptyString
| blank_cons (cp : N) (r : string) :
    In cp ws_code_points -> blank r -> blank (utf8 cp ++ r).

(** Every byte of [s] satisfies [f]. *)
Fixpoint forall_chars (f : ascii -> bool) (s : string) : bool :=
  match s with
  | EmptyString => true
  | String c r => f c && forall_chars f r
  end.

End Str.

(* ------------------------------------------------------------------ *)
(** ** URLSearchParams (WHATWG application/x-www-form-urlencoded) *)

Module Url.
Import Str.

Definition hex_digit (n : nat) : ascii :=
  match n with
  | 0 => "0" | 1 => "1" | 2 => "2" | 3 => "3" | 4 => "4" | 5 => "5"
  | 6 => "6" | 7 => "7" | 8 => "8" | 9 => "9" | 10 => "A" | 11 => "B"
  | 12 => "C" | 13 => "D" | 14 => "E" | _ => "F"
  end%char.

Definition hex_value (c : ascii) : option nat :=
  let n := nat_of_ascii c in
  if (48 <=? n) && (n <=? 57) then Some (n - 48)
  else if (65 <=? n) && (n <=? 70) then Some (n - 55)
  else if (97 <=? n) && (n <=? 102) then Some (n - 87)
  else None.

(** Bytes left as they are by the form-urlencoded serialiser:
    [*], [-], [.], digits, upper-case letters, [_], lower-case letters. *)
Definition unreserved (c : ascii) : bool :=
  let n := nat_of_ascii c in
  (n =? 42) || (n =? 45) || (n =? 46) || ((48 <=? n) && (n <=? 57))
  || ((65 <=? n) && (n <=? 90)) || (n =? 95) || ((97 <=? n) && (n <=? 122)).

Definition encode_char (c : ascii) : string :=
  if unreserved c then String c EmptyString
  else if Ascii.eqb c " " then "+"
  else let n := nat_of_ascii c in
       String "%" (String (hex_digit (n / 16)) (String (hex_digit (n mod 16)) EmptyString)).

Fixpoint encode (s : string) : string :=
  match s with
  | EmptyString => EmptyString
  | String c r => encode_char c ++ encode r
  end.

(** Parser step 1: every [+] becomes a space. *)
Fixpoint replace_plus (s : string) : string :=
  match s with
  | EmptyString => EmptyString
  | String c r => String (if Ascii.eqb c "+" then " " else c)%char (replace_plus r)
  end.

(** Parser step 2: percent-decoding; a [%] not followed by two hex digits
    is kept as it is. *)
Fixpoint percent_decode (s : string) : string :=
  match s with
  | EmptyString => EmptyString
  | String c r =>
      if Ascii.eqb c "%" then
        match r with
        | String h1 (String h2 r') =>
            match hex_value h1, hex_value h2 with
            | Some a, Some b => String (ascii_of_nat (16 * a + b)) (percent_decode r')
            | _, _ => String c (percent_decode r)
            end
        | _ => String c (percent_decode r)
        end
      else String c (percent_decode r)
  end.

Definition form_decode (s : string) : string := percent_decode (replace_plus s).

(** Split a sequence at its first [=]: name and value ([""] if none). *)
Fixpoint split_first_eq (s : string) : string * string :=
  match s with
  | EmptyString => (EmptyString, EmptyString)
  | String c r =>
      if Ascii.eqb c "=" then (EmptyString, r)
      else let (a, b) := split_first_eq r in (String c a, b)
  end.

Definition Params := list (string * string).

(** [new URLSearchParams(init)]: a leading [?] is dropped, the rest is
    split on [&], empty sequences are skipped. *)
Definition parse (init : string) : Params :=
  let body := match init with
              | String c r => if Ascii.eqb c "?" then r else init
              | EmptyString => init
              end in
  flat_map (fun seq =>
              if truthy seq then
                let (n, v) := split_first_eq seq in [(form_decode n, form_decode v)]
              else [])
           (split_on (is_char "&") body).

(** [params.get(name)]: the first value under [name], [null] as [None]. *)
Fixpoint get (name : string) (ps : Params) : option string :=
  match ps with
  | [] => None
  | (k, v) :: r => if String.eqb k name then Some v else get name r
  end.

(** [params.set(name, value)]: replaces the first pair under [name] and
    drops the others, or appends when there is none. *)
Fixpoint set_aux (name value : string) (ps : Params) (found : bool) : Params :=
  match ps with
  | [] => if found then [] else [(name, value)]
  | (k, v) :: r =>
      if String.eqb k name then
        if found then set_aux name value r true
        else (k, value) :: set_aux name value r true
      else (k, v) :: set_aux name value r found
  end.

Definition set (name value : string) (ps : Params) : Params :=
  set_aux name value ps false.

Definition serialize_pair (kv : string * string) : string :=
  encode (fst kv) ++ "=" ++ encode (snd kv).

(** [params.toString()] *)
Definition to_string (ps : Params) : string :=
  String.concat "&" (map serialize_pair ps).

(** [location.search] of the location reached by navigating to the path
    [url]: from the first [?] up to a [#], or [""] when that is just ["?"]
    or there is no [?]. *)
Fixpoint take_until_hash (s : string) : string :=
  match s with
  | EmptyString => EmptyString
  | String c r => if Ascii.eqb c "#" then EmptyString else String c (take_until_hash r)
  end.

Fixpoint search_of_url (url : string) : string :=
  match url with
  | EmptyString => EmptyString
  | String c r =>
      if Ascii.eqb c "#" then EmptyString
      else if Ascii.eqb c "?" then
        match take_until_hash r with
        | EmptyString => EmptyString
        | q => String "?" q
        end
      else search_of_url r
  end.

(** Bytes that never occur in an encoded name or value. *)
Definition pair_safe (c : ascii) : bool :=
  negb (Ascii.eqb c "&" || Ascii.eqb c "=" || Ascii.eqb c "#").

End Url.

(* ------------------------------------------------------------------ *)
(** ** [encodeURIComponent] (used in request paths only) *)

Module Uri.
Import Str.

Definition uri_unreserved (c : ascii) : bool :=
  let n := nat_of_ascii c in
  ((48 <=? n) && (n <=? 57)) || ((65 <=? n) && (n <=? 90))
  || ((97 <=? n) && (n <=? 122))
  || (n =? 45) || (n =? 95) || (n =? 46) || (n =? 33) || (n =? 126)
  || (n =? 42) || (n =? 39) || (n =? 40) || (n =? 41).

Fixpoint encodeURIComponent (s : string) : string :=
  match s with
  | EmptyString => EmptyString
  | String c r =>
      (if uri_unreserved c then String c EmptyString
       else let n := nat_of_ascii c in
            String "%" (String (Url.hex_digit (n / 16))
                          (String (Url.hex_digit (n mod 16)) EmptyString)))
      ++ encodeURIComponent r
  end.

End Uri.

(* ------------------------------------------------------------------ *)
(** ** The component *)

Module PropertiesSearch.
Import Str.

(** [PropertyItem]; its [type] field is always ['property'] and is left out. *)
Record PropertyItem := { value : string; label : string }.

Record Neighbor := {
  direction : string;
  predicate : string;
  display : string;
  displayType : string
}.

Record SemanticLink := {
  id : string;
  entity_id : string;
  entity_type : string;
  iri : string
}.

(** [EnrichedSemanticLink = SemanticLink & { entity_name?: string }]; the
    enrichment always sets [entity_name]. *)
Record EnrichedSemanticLink := {
  base_link : SemanticLink;
  entity_name : string
}.

(** The [data] of a contract detail response, as far as it is read:
    [data?.name] and [data?.info?.title] ([None] for [undefined]). *)
Record ContractData := {
  c_name : option string;
  c_info_title : option string
}.

(** Outcome of an awaited [get]/[post]: the promise resolves with a
    response whose [data] field is given, or it rejects (the [catch]
    branch). *)
Inductive Fetch (A : Type) :=
| Resolved (data : option A)
| Rejected.
Arguments Resolved {A} data.
Arguments Rejected {A}.

(** [x || ''] for a possibly undefined string. *)
Definition str_or (o : option string) (d : string) : string :=
  match o with Some v => or_else v d | None => d end.

(** [res.data || []] *)
Definition list_or_nil {A} (o : option (list A)) : list A :=
  match o with Some l => l | None => [] end.

Record State := {
  propertySearchQuery : string;
  propertySearchResults : list PropertyItem;
  isPropertyDropdownOpen : bool;
  selectedProperty : option PropertyItem;
  propertyIri : string;
  propertyLabel : string;
  propertyNeighbors : list Neighbor;
  semanticLinks : list EnrichedSemanticLink;
  assignDialogOpen : bool;
  assignTargetType : string;
  selectedContractId : string;
  selectedSchemaName : string;
  selectedPropertyEntityId : string;
  locationSearch : string
}.

Definition setPropertySearchQuery (st : State) (x : string) : State :=
  {| propertySearchQuery := x; propertySearchResults := propertySearchResults st; isPropertyDropdownOpen := isPropertyDropdownOpen st; selectedProperty := selectedProperty st; propertyIri := propertyIri st; propertyLabel := propertyLabel st; propertyNeighbors := propertyNeighbors st; semanticLinks := semanticLinks st; assignDialogOpen := assignDialogOpen st; assignTargetType := assignTargetType st; selectedContractId := selectedContractId st; selectedSchemaName := selectedSchemaName st; selectedPropertyEntityId := selectedPropertyEntityId st; locationSearch := locationSearch st |}.

Definition setPropertySearchResults (st : State) (x : list PropertyItem) : State :=
  {| propertySearchQuery := propertySearchQuery st; propertySearchResults := x; isPropertyDropdownOpen := isPropertyDropdownOpen st; selectedProperty := selectedProperty st; propertyIri := propertyIri st; propertyLabel := propertyLabel st; propertyNeighbors := propertyNeighbors st; semanticLinks := semanticLinks st; assignDialogOpen := assignDialogOpen st; assignTargetType := assignTargetType st; selectedContractId := selectedContractId st; selectedSchemaName := selectedSchemaName st; selectedPropertyEntityId := selectedPropertyEntityId st; locationSearch := locationSearch st |}.

Definition setIsPropertyDropdownOpen (st : State) (x : bool) : State :=
  {| propertySearchQuery := propertySearchQuery st; propertySearchResults := propertySearchResults st; isPropertyDropdownOpen := x; selectedProperty := selectedProperty st; propertyIri := propertyIri st; propertyLabel := propertyLabel st; propertyNeighbors := propertyNeighbors st; semanticLinks := semanticLinks st; assignDialogOpen := assignDialogOpen st; assignTargetType := assignTargetType st; selectedContractId := selectedContractId st; selectedSchemaName := selectedSchemaName st; selectedPropertyEntityId := selectedPropertyEntityId st; locationSearch := locationSearch st |}.

Definition setSelectedProperty (st : State) (x : option PropertyItem) : State :=
  {| propertySearchQuery := propertySearchQuery st; propertySearchResults := propertySearchResults st; isPropertyDropdownOpen := isPropertyDropdownOpen st; selectedProperty := x; propertyIri := propertyIri st; propertyLabel := propertyLabel st; propertyNeighbors := propertyNeighbors st; semanticLinks := semanticLinks st; assignDialogOpen := assignDialogOpen st; assignTargetType := assignTargetType st; selectedContractId := selectedContractId st; selectedSchemaName := selectedSchemaName st; selectedPropertyEntityId := selectedPropertyEntityId st; locationSearch := locationSearch st |}.

Definition setPropertyIri (st : State) (x : string) : State :=
  {| propertySearchQuery := propertySearchQuery st; propertySearchResults := propertySearchResults st; isPropertyDropdownOpen := isPropertyDropdownOpen st; selectedProperty := selectedProperty st; propertyIri := x; propertyLabel := propertyLabel st; propertyNeighbors := propertyNeighbors st; semanticLinks := semanticLinks st; assignDialogOpen := assignDialogOpen st; assignTargetType := assignTargetType st; selectedContractId := selectedContractId st; selectedSchemaName := selectedSchemaName st; selectedPropertyEntityId := selectedPropertyEntityId st; locationSearch := locationSearch st |}.

Definition setPropertyLabel (st : State) (x : string) : State :=
  {| propertySearchQuery := propertySearchQuery st; propertySearchResults := propertySearchResults st; isPropertyDropdownOpen := isPropertyDropdownOpen st; selectedProperty := selectedProperty st; propertyIri := propertyIri st; propertyLabel := x; propertyNeighbors := propertyNeighbors st; semanticLinks := semanticLinks st; assignDialogOpen := assignDialogOpen st; assignTargetType := assignTargetType st; selectedContractId := selectedContractId st; selectedSchemaName := selectedSchemaName st; selectedPropertyEntityId := selectedPropertyEntityId st; locationSearch := locationSearch st |}.

Definition setPropertyNeighbors (st : State) (x : list Neighbor) : State :=
  {| propertySearchQuery := propertySearchQuery st; propertySearchResults := propertySearchResults st; isPropertyDropdownOpen := isPropertyDropdownOpen st; selectedProperty := selectedProperty st; propertyIri := propertyIri st; propertyLabel := propertyLabel st; propertyNeighbors := x; semanticLinks := semanticLinks st; assignDialogOpen := assignDialogOpen st; assignTargetType := assignTargetType st; selectedContractId := selectedContractId st; selectedSchemaName := selectedSchemaName st; selectedPropertyEntityId := selectedPropertyEntityId st; locationSearch := locationSearch st |}.

Definition setSemanticLinks (st : State) (x : list EnrichedSemanticLink) : State :=
  {| propertySearchQuery := propertySearchQuery st; propertySearchResults := propertySearchResults st; isPropertyDropdownOpen := isPropertyDropdownOpen st; selectedProperty := selectedProperty st; propertyIri := propertyIri st; propertyLabel := propertyLabel st; propertyNeighbors := propertyNeighbors st; semanticLinks := x; assignDialogOpen := assignDialogOpen st; assignTargetType := assignTargetType st; selectedContractId := selectedContractId st; selectedSchemaName := selectedSchemaName st; selectedPropertyEntityId := selectedPropertyEntityId st; locationSearch := locationSearch st |}.

Definition setAssignDialogOpen (st : State) (x : bool) : State :=
  {| propertySearchQuery := propertySearchQuery st; propertySearchResults := propertySearchResults st; isPropertyDropdownOpen := isPropertyDropdownOpen st; selectedProperty := selectedProperty st; propertyIri := propertyIri st; propertyLabel := propertyLabel st; propertyNeighbors := propertyNeighbors st; semanticLinks := semanticLinks st; assignDialogOpen := x; assignTargetType := assignTargetType st; selectedContractId := selectedContractId st; selectedSchemaName := selectedSchemaName st; selectedPropertyEntityId := selectedPropertyEntityId st; locationSearch := locationSearch st |}.

Definition setAssignTargetType (st : State) (x : string) : State :=
  {| propertySearchQuery := propertySearchQuery st; propertySearchResults := propertySearchResults st; isPropertyDropdownOpen := isPropertyDropdownOpen st; selectedProperty := selectedProperty st; propertyIri := propertyIri st; propertyLabel := propertyLabel st; propertyNeighbors := propertyNeighbors st; semanticLinks := semanticLinks st; assignDialogOpen := assignDialogOpen st; assignTargetType := x; selectedContractId := selectedContractId st; selectedSchemaName := selectedSchemaName st; selectedPropertyEntityId := selectedPropertyEntityId st; locationSearch := locationSearch st |}.

Definition setSelectedContractId (st : State) (x : string) : State :=
  {| propertySearchQuery := propertySearchQuery st; propertySearchResults := propertySearchResults st; isPropertyDropdownOpen := isPropertyDropdownOpen st; selectedProperty := selectedProperty st; propertyIri := propertyIri st; propertyLabel := propertyLabel st; propertyNeighbors := propertyNeighbors st; semanticLinks := semanticLinks st; assignDialogOpen := assignDialogOpen st; assignTargetType := assignTargetType st; selectedContractId := x; selectedSchemaName := selectedSchemaName st; selectedPropertyEntityId := selectedPropertyEntityId st; locationSearch := locationSearch st |}.

Definition setSelectedSchemaName (st : State) (x : string) : State :=
  {| propertySearchQuery := propertySearchQuery st; propertySearchResults := propertySearchResults st; isPropertyDropdownOpen := isPropertyDropdownOpen st; selectedProperty := selectedProperty st; propertyIri := propertyIri st; propertyLabel := propertyLabel st; propertyNeighbors := propertyNeighbors st; semanticLinks := semanticLinks st; assignDialogOpen := assignDialogOpen st; assignTargetType := assignTargetType st; selectedContractId := selectedContractId st; selectedSchemaName := x; selectedPropertyEntityId := selectedPropertyEntityId st; locationSearch := locationSearch st |}.

Definition setSelectedPropertyEntityId (st : State) (x : string) : State :=
  {| propertySearchQuery := propertySearchQuery st; propertySearchResults := propertySearchResults st; isPropertyDropdownOpen := isPropertyDropdownOpen st; selectedProperty := selectedProperty st; propertyIri := propertyIri st; propertyLabel := propertyLabel st; propertyNeighbors := propertyNeighbors st; semanticLinks := semanticLinks st; assignDialogOpen := assignDialogOpen st; assignTargetType := assignTargetType st; selectedContractId := selectedContractId st; selectedSchemaName := selectedSchemaName st; selectedPropertyEntityId := x; locationSearch := locationSearch st |}.

Definition setLocationSearch (st : State) (x : string) : State :=
  {| propertySearchQuery := propertySearchQuery st; propertySearchResults := propertySearchResults st; isPropertyDropdownOpen := isPropertyDropdownOpen st; selectedProperty := selectedProperty st; propertyIri := propertyIri st; propertyLabel := propertyLabel st; propertyNeighbors := propertyNeighbors st; semanticLinks := semanticLinks st; assignDialogOpen := assignDialogOpen st; assignTargetType := assignTargetType st; selectedContractId := selectedContractId st; selectedSchemaName := selectedSchemaName st; selectedPropertyEntityId := selectedPropertyEntityId st; locationSearch := x |}.

(** *** [updateUrl] *)

Record UrlUpdate := { u_query : option string; u_iri : option string }.

(** [navigate(url, { replace })] *)
Record Navigation := { nav_to : string; nav_replace : bool }.

Definition updateUrl (search : string) (updates : UrlUpdate) : Navigation :=
  let params : Url.Params := [] in
  let currentParams := Url.parse search in
  let currentQuery := match u_query updates with
                      | Some q => q
                      | None => str_or (Url.get "query" currentParams) ""
                      end in
  let currentIri := match u_iri updates with
                    | Some i => i
                    | None => str_or (Url.get "iri" currentParams) ""
                    end in
  let params := if truthy currentQuery then Url.set "query" currentQuery params else params in
  let params := if truthy currentIri then Url.set "iri" currentIri params else params in
  let queryString := Url.to_string params in
  let newUrl := if truthy queryString then "/search/properties?" ++ queryString
                else "/search/properties" in
  {| nav_to := newUrl; nav_replace := true |}.

(** The router's location after a navigation. *)
Definition navigate (st : State) (n : Navigation) : State :=
  setLocationSearch st (Url.search_of_url (nav_to n)).

(** [updateUrl] as the component runs it: reads [location.search] and
    navigates. The source reads the [location] of the render its closure
    comes from; this is the current one whenever no navigation happened
    in between, which is what the model assumes. *)
Definition updateUrlSt (st : State) (u : UrlUpdate) : State :=
  navigate st (updateUrl (locationSearch st) u).

(** *** Requests and notifications *)

Record LinkPayload := {
  p_entity_id : string;
  p_entity_type : string;
  p_iri : string
}.

Inductive Variant := VDefault | VDestructive.

Inductive Effect :=
| EGet (path : string)
| EPost (path : string) (payload : LinkPayload)
| EToast (variant : Variant) (description : string).

(** *** Debounced search handler [searchProperties] *)

Definition search_path (q : string) : string :=
  "/api/semantic-models/properties?q=" ++ Uri.encodeURIComponent q ++ "&limit=50".

(** The part before the [await]: an empty or blank query is handled at
    once; otherwise the search request is issued. *)
Definition searchProperties_start (st : State) : State * list Effect :=
  let q := propertySearchQuery st in
  if negb (truthy (trim q)) then
    let st := setPropertySearchResults st [] in
    let st := setIsPropertyDropdownOpen st false in
    let st := updateUrlSt st {| u_query := Some ""; u_iri := None |} in
    (st, [])
  else (st, [EGet (search_path q)]).

(** The continuation after the request for query [q] settles. *)
Definition searchProperties_resume (st : State) (q : string)
    (res : Fetch (list PropertyItem)) : State :=
  match res with
  | Resolved data =>
      let st := setPropertySearchResults st (list_or_nil data) in
      let st := setIsPropertyDropdownOpen st (0 <? length (list_or_nil data)) in
      updateUrlSt st {| u_query := Some q; u_iri := None |}
  | Rejected =>
      let st := setPropertySearchResults st [] in
      setIsPropertyDropdownOpen st false
  end.

(** *** [clearSearch] *)

Definition clearSearch (st : State) : State :=
  let st := setPropertySearchQuery st "" in
  let st := setSelectedProperty st None in
  let st := setPropertyIri st "" in
  let st := setPropertyLabel st "" in
  let st := setPropertyNeighbors st [] in
  let st := setSemanticLinks st [] in
  let st := setIsPropertyDropdownOpen st false in
  updateUrlSt st {| u_query := Some ""; u_iri := Some "" |}.

(** *** [selectProperty] *)

(** The display label computed in [selectProperty]. *)
Definition displayLabel (property : PropertyItem) : string :=
  let displayLabel := label property in
  if negb (truthy displayLabel) || String.eqb (trim displayLabel) (value property) then
    if includes_char "#" (value property)
    then pop_last (split_on (is_char "#") (value property))
    else or_else (pop_last (split_on (is_char "/") (value property))) (value property)
  else displayLabel.

Definition neighbors_path (v : string) : string :=
  "/api/semantic-models/neighbors?iri=" ++ Uri.encodeURIComponent v ++ "&limit=200".

Definition links_path (v : string) : string :=
  "/api/semantic-links/iri/" ++ Uri.encodeURIComponent v.

(** The synchronous part of [selectProperty], up to the first [await]. *)
Definition selectProperty_start (st : State) (property : PropertyItem)
    : State * list Effect :=
  let st := setSelectedProperty st (Some property) in
  let st := setPropertyIri st (value property) in
  let dl := displayLabel property in
  let st := setPropertyLabel st dl in
  let st := setPropertySearchQuery st (dl ++ " - " ++ value property) in
  let st := setIsPropertyDropdownOpen st false in
  let st := updateUrlSt st {| u_query := None; u_iri := Some (value property) |} in
  (st, [EGet (neighbors_path (value property))]).

(** *** [enrichSemanticLinksWithNames] *)

(** [contractRes.data?.name || contractRes.data?.info?.title || fallback] *)
Definition contract_title (data : option ContractData) (fallback : string) : string :=
  match data with
  | Some d => or_else (str_or (c_name d) "") (or_else (str_or (c_info_title d) "") fallback)
  | None => fallback
  end.

Definition contract_path (cid : string) : string := "/api/data-contracts/" ++ cid.

Section Enrich.

(** The server's answer to [get(path)] for a contract detail path. *)
Variable api : string -> Fetch ContractData.

(** One iteration of the loop: the [try] block, with the [catch] branch
    taken when an awaited [get] rejects. *)
Definition enrich_one (link : SemanticLink) : EnrichedSemanticLink :=
  let caught := {| base_link := link; entity_name := entity_id link |} in
  let entityName := entity_id link in
  if String.eqb (entity_type link) "data_contract_property" then
    let parts := split_on (is_char "#") (entity_id link) in
    let contractId := nth 0 parts "" in
    let schemaName := nth 1 parts "" in
    let propName := nth 2 parts "" in
    if truthy contractId then
      match api (contract_path contractId) with
      | Rejected => caught
      | Resolved data =>
          let contractTitle := contract_title data contractId in
          {| base_link := link;
             entity_name := trim (contractTitle ++ "#" ++ schemaName ++ "." ++ propName) |}
      end
    else {| base_link := link; entity_name := entityName |}
  else if String.eqb (entity_type link) "uc_column" then
    {| base_link := link; entity_name := entity_id link |}
  else if String.eqb (entity_type link) "data_contract" then
    match api (contract_path (entity_id link)) with
    | Rejected => caught
    | Resolved data =>
        {| base_link := link; entity_name := contract_title data (entity_id link) |}
    end
  else {| base_link := link; entity_name := entityName |}.

(** [for (const link of links) { ...; result.push(...) }] *)
Fixpoint enrich_loop (links : list SemanticLink) (result : list EnrichedSemanticLink)
    : list EnrichedSemanticLink :=
  match links with
  | [] => result
  | link :: rest => enrich_loop rest (result ++ [enrich_one link])%list
  end.

Definition enrichSemanticLinksWithNames (links : list SemanticLink)
    : list EnrichedSemanticLink :=
  enrich_loop links [].

End Enrich.

(** *** The continuations of [selectProperty] *)

(** After the neighbours request for [v] settles; the links request for
    [v] is issued next. *)
Definition neighbors_resume (st : State) (res : Fetch (list Neighbor)) : State :=
  match res with
  | Resolved data => setPropertyNeighbors st (list_or_nil data)
  | Rejected => setPropertyNeighbors st []
  end.

(** After the links request settles; the enrichment runs to completion
    (it never rejects) before [setSemanticLinks]. *)
Definition links_resume (api : string -> Fetch ContractData) (st : State)
    (res : Fetch (list SemanticLink)) : State :=
  match res with
  | Resolved data => setSemanticLinks st (enrichSemanticLinksWithNames api (list_or_nil data))
  | Rejected => setSemanticLinks st []
  end.

(** An in-flight [selectProperty] call, suspended at one of its awaits,
    with the IRI it was started for. *)
Inductive Pending :=
| AwaitNeighbors (v : string)
| AwaitLinks (v : string).

Record Config := { cfg_state : State; cfg_pending : list Pending }.

(** What can happen next: the user selects a property, or the [n]-th
    suspended call resumes with a response. Nothing ties a response to
    the property selected at that time. *)
Inductive Event :=
| Select (p : PropertyItem)
| NeighborsArrive (n : nat) (res : Fetch (list Neighbor))
| LinksArrive (n : nat) (res : Fetch (list SemanticLink)).

Fixpoint remove_nth {A} (n : nat) (l : list A) : list A :=
  match n, l with
  | _, [] => []
  | 0, _ :: r => r
  | S n, x :: r => x :: remove_nth n r
  end.

Definition step (api : string -> Fetch ContractData) (c : Config) (e : Event) : Config :=
  match e with
  | Select p =>
      {| cfg_state := fst (selectProperty_start (cfg_state c) p);
         cfg_pending := (cfg_pending c ++ [AwaitNeighbors (value p)])%list |}
  | NeighborsArrive n res =>
      match nth_error (cfg_pending c) n with
      | Some (AwaitNeighbors v) =>
          {| cfg_state := neighbors_resume (cfg_state c) res;
             cfg_pending := (remove_nth n (cfg_pending c) ++ [AwaitLinks v])%list |}
      | _ => c
      end
  | LinksArrive n res =>
      match nth_error (cfg_pending c) n with
      | Some (AwaitLinks v) =>
          {| cfg_state := links_resume api (cfg_state c) res;
             cfg_pending := remove_nth n (cfg_pending c) |}
      | _ => c
      end
  end.

Definition run (api : string -> Fetch ContractData) (c : Config) (es : list Event) : Config :=
  fold_left (step api) es c.

(** *** Inbound URL sync: [loadPropertyFromIri] *)

(** [urlIri.split(/[/#]/).pop()] *)
Definition iri_tail (s : string) : string :=
  pop_last (split_on (fun c => Ascii.eqb c "/" || Ascii.eqb c "#") s).

Definition iri_search_path (i : string) : string :=
  "/api/semantic-models/properties?q=" ++ Uri.encodeURIComponent i ++ "&limit=10".

(** The effect on [location.search]: the [query] adoption, then, when an
    [iri] parameter is present, the resolution of that IRI given the
    outcome [res] of the 10-hit search; ends with the synchronous part of
    the [selectProperty] it awaits. *)
Definition loadFromUrl (initialQuery : string) (st : State)
    (res : Fetch (list PropertyItem)) : State * list Effect :=
  let params := Url.parse (locationSearch st) in
  let urlQuery := Url.get "query" params in
  let urlIri := Url.get "iri" params in
  let st := match urlQuery with
            | Some q => if truthy q && negb (String.eqb q initialQuery)
                        then setPropertySearchQuery st q else st
            | None => st
            end in
  match urlIri with
  | Some i =>
      if truthy i then
        match res with
        | Resolved data =>
            match find (fun p => String.eqb (value p) i) (list_or_nil data) with
            | Some m =>
                let (st', effs) := selectProperty_start st m in
                (st', EGet (iri_search_path i) :: effs)
            | None =>
                let item := {| value := i; label := or_else (iri_tail i) i |} in
                let (st', effs) := selectProperty_start st item in
                (st', EGet (iri_search_path i) :: effs)
            end
        | Rejected => (st, [EGet (iri_search_path i)])
        end
      else (st, [])
  | None => (st, [])
  end.

(** *** Assignment cascade *)

Definition handleAssignTargetTypeChange (st : State) (v : string) : State :=
  let st := setAssignTargetType st v in
  let st := setSelectedContractId st "" in
  let st := setSelectedSchemaName st "" in
  setSelectedPropertyEntityId st "".

(** [onValueChange] of the contract select. *)
Definition onContractChange (st : State) (v : string) : State :=
  let st := setSelectedContractId st v in
  let st := setSelectedSchemaName st "" in
  setSelectedPropertyEntityId st "".

(** [onValueChange] of the schema select. *)
Definition onSchemaChange (st : State) (v : string) : State :=
  let st := setSelectedSchemaName st v in
  setSelectedPropertyEntityId st "".

(** [onValueChange] of the property select. *)
Definition onPropertyChange (st : State) (v : string) : State :=
  setSelectedPropertyEntityId st v.

(** *** [handleAssign] *)

(** How the awaited [post] settles: resolved with [res.error], or
    rejected with an error whose [message] is given. *)
Inductive PostOutcome :=
| PostResolved (error : option string)
| PostRejected (message : string).

Definition links_post_path : string := "/api/semantic-links/".

(** [post] gives the outcome for the payload sent. Returns the state and
    the requests and toasts in the order they happen, down to the
    synchronous part of the final [selectProperty]. *)
Definition handleAssign (post : LinkPayload -> PostOutcome) (st : State)
    : State * list Effect :=
  match selectedProperty st with
  | None => (st, [])
  | Some sp =>
      if negb (truthy (assignTargetType st)) then (st, []) else
      let entityType := assignTargetType st in
      let entityId :=
        if String.eqb entityType "data_contract_property"
        then selectedPropertyEntityId st else "" in
      if String.eqb entityType "data_contract_property" && negb (truthy entityId) then
        (st, [EToast VDestructive "search:properties.messages.selectPropertyTarget"])
      else if String.eqb entityType "uc_column" then (st, [])
      else
        let payload := {| p_entity_id := entityId; p_entity_type := entityType;
                          p_iri := value sp |} in
        let fail msg :=
          (st, [EPost links_post_path payload;
                EToast VDestructive (or_else msg "search:properties.messages.assignFailed")]) in
        let success :=
          let st := setAssignDialogOpen st false in
          let st := setAssignTargetType st "" in
          let st := setSelectedContractId st "" in
          let st := setSelectedSchemaName st "" in
          let st := setSelectedPropertyEntityId st "" in
          let (st', effs) := selectProperty_start st sp in
          (st', (EPost links_post_path payload
                 :: EToast VDefault "search:properties.messages.linkedSuccess" :: effs)%list) in
        match post payload with
        | PostResolved err =>
            (* [if (res.error) throw new Error(res.error)] *)
            if truthy (str_or err "") then fail (str_or err "") else success
        | PostRejected m => fail m
        end
  end.

(** *** Reading back the URL *)

(** The value of a parameter as the component reads it
    ([params.get(k) || '']), with [""] meaning "not there". *)
Definition present (o : option string) : option string :=
  match o with Some v => if truthy v then Some v else None | None => None end.

Definition opt_param (k : string) (o : option string) : Url.Params :=
  match o with Some v => [(k, v)] | None => [] end.

(** The parameters of the location a state is at. *)
Definition url_params (st : State) : Url.Params := Url.parse (locationSearch st).

(** The value [updateUrl] keeps for parameter [k]: the update if given,
    else the current one read as [get(k) || '']. *)
Definition merged (k : string) (upd : option string) (search : string) : string :=
  match upd with Some v => v | None => str_or (Url.get k (Url.parse search)) "" end.

(** The parameters [updateUrl] writes for the kept values [q] and [i]. *)
Definition params_of (q i : string) : Url.Params :=
  ((if truthy q then [("query", q)] else []) ++ (if truthy i then [("iri", i)] else []))%list.

(** The state right after mounting: the [useState] initialisers, at the
    location [search]. *)
Definition initial (initialQuery : string) (initialSelectedProperty : option PropertyItem)
    (search : string) : State :=
  {| propertySearchQuery := initialQuery; propertySearchResults := [];
     isPropertyDropdownOpen := false; selectedProperty := initialSelectedProperty;
     propertyIri := ""; propertyLabel := ""; propertyNeighbors := [];
     semanticLinks := []; assignDialogOpen := false; assignTargetType := "";
     selectedContractId := ""; selectedSchemaName := "";
     selectedPropertyEntityId := ""; locationSearch := search |}.

(** Whether a [post] outcome takes [handleAssign] into its [catch], and
    with which [error.message]. *)
Definition post_error (o : PostOutcome) : option string :=
  match o with
  | PostResolved err => if truthy (str_or err "") then Some (str_or err "") else None
  | PostRejected m => Some m
  end.

End PropertiesSearch.

(* ------------------------------------------------------------------ *)
(** ** The rest of the component: derived values, render logic, the
    column-assignment handler and the search debounce *)

Module Panel.
Import Str PropertiesSearch.

(** [hay.includes(needle)] *)
Fixpoint includes (needle hay : string) : bool :=
  String.prefix needle hay ||
  match hay with EmptyString => false | String _ r => includes needle r end.

(** *** [getLiteralAttributes] and [getDomainRange] *)

Definition is_literal_attribute (n : Neighbor) : bool :=
  String.eqb (direction n) "outgoing" && String.eqb (displayType n) "literal"
  && negb (includes "type" (predicate n)).

Definition getLiteralAttributes (st : State) : list Neighbor :=
  filter is_literal_attribute (propertyNeighbors st).

Definition is_domain_range (n : Neighbor) : bool :=
  String.eqb (displayType n) "resource"
  && (includes "domain" (predicate n) || includes "range" (predicate n)).

Definition getDomainRange (st : State) : list Neighbor :=
  filter is_domain_range (propertyNeighbors st).

(** The name shown for a literal attribute:
    [prop.predicate.split('/').pop()?.split('#').pop() || prop.predicate]. *)
Definition literal_label (n : Neighbor) : string :=
  or_else (pop_last (split_on (is_char "#") (pop_last (split_on (is_char "/") (predicate n)))))
          (predicate n).

(** [x.split('#').pop() || x] *)
Definition hash_tail_or (x : string) : string :=
  or_else (pop_last (split_on (is_char "#") x)) x.

(** The text of a domain/range badge: [predicate-tail: display-tail]. *)
Definition domain_range_badge (n : Neighbor) : string :=
  hash_tail_or (predicate n) ++ ": " ++ hash_tail_or (display n).

(** *** Type label of a linked object *)

(** [\w]: ASCII letters, digits and [_]. *)
Definition is_word (c : ascii) : bool :=
  let n := nat_of_ascii c in
  ((48 <=? n) && (n <=? 57)) || ((65 <=? n) && (n <=? 90)) || (n =? 95)
  || ((97 <=? n) && (n <=? 122)).

Definition is_lower (c : ascii) : bool :=
  let n := nat_of_ascii c in (97 <=? n) && (n <=? 122).

Definition is_upper (c : ascii) : bool :=
  let n := nat_of_ascii c in (65 <=? n) && (n <=? 90).

(** [c.toUpperCase()] on one byte. *)
Definition to_upper (c : ascii) : ascii :=
  if is_lower c then ascii_of_nat (nat_of_ascii c - 32) else c.

Definition to_lower (c : ascii) : ascii :=
  if is_upper c then ascii_of_nat (nat_of_ascii c + 32) else c.

(** [.replace(/_/g, ' ')] *)
Fixpoint replace_underscores (s : string) : string :=
  match s with
  | EmptyString => EmptyString
  | String c r => String (if Ascii.eqb c "_" then " " else c)%char (replace_underscores r)
  end.

(** [.replace(/\b\w/g, (c) => c.toUpperCase())]: a word character is at a
    word boundary when it starts the string or follows a non-word one;
    [prev_word] tells whether the byte before is a word character. *)
Fixpoint capitalize_words (prev_word : bool) (s : string) : string :=
  match s with
  | EmptyString => EmptyString
  | String c r =>
      String (if is_word c && negb prev_word then to_upper c else c)
             (capitalize_words (is_word c) r)
  end.

(** The [typeLabel] of a link; [t(key)] is kept as its key. *)
Definition typeLabel (entity_type : string) : string :=
  if String.eqb entity_type "uc_column" then "search:properties.assignDialog.ucColumn"
  else if String.eqb entity_type "uc_table" then "search:properties.assignDialog.ucTable"
  else capitalize_words false (replace_underscores entity_type).

(** Every byte of [s] in lower case (used to compare labels up to case). *)
Fixpoint lower_all (s : string) : string :=
  match s with
  | EmptyString => EmptyString
  | String c r => String (to_lower c) (lower_all r)
  end.

(** No word of [s] starts with a lower-case letter. *)
Fixpoint words_capitalized (prev_word : bool) (s : string) : bool :=
  match s with
  | EmptyString => true
  | String c r => negb (negb prev_word && is_lower c) && words_capitalized (is_word c) r
  end.

(** *** The contract, schema and property choices *)

(** A property of a schema object; [name] may be missing. *)
Record SchemaProperty := { sp_name : option string }.

Record SchemaObject := {
  so_name : option string;
  so_physical_name : option string;
  so_properties : option (list SchemaProperty)
}.

(** [selectedContractDetail], as far as it is read. *)
Record ContractDetail := { schema_objects : option (list SchemaObject) }.

(** The detail effect on [selectedContractId]: no id clears the detail;
    otherwise the contract is fetched, and [res.data] (or [null] on
    failure) becomes the detail. *)
Definition contractDetail_effect (selectedContractId : string) (res : Fetch ContractDetail)
    : option ContractDetail * list Effect :=
  if negb (truthy selectedContractId) then (None, [])
  else match res with
       | Resolved data => (data, [EGet (contract_path selectedContractId)])
       | Rejected => (None, [EGet (contract_path selectedContractId)])
       end.

(** [selectedContractDetail?.schema_objects || []] *)
Definition schemaObjects (d : option ContractDetail) : list SchemaObject :=
  match d with Some d => list_or_nil (schema_objects d) | None => [] end.

(** [s.name || s.physical_name] *)
Definition schema_display (s : SchemaObject) : option string :=
  match so_name s with
  | Some n => if truthy n then Some n else so_physical_name s
  | None => so_physical_name s
  end.

Definition schemas (d : option ContractDetail) : list (option string) :=
  map schema_display (schemaObjects d).

Definition selectedSchema (d : option ContractDetail) (selectedSchemaName : string)
    : option SchemaObject :=
  find (fun s => match schema_display s with
                 | Some n => String.eqb n selectedSchemaName
                 | None => false
                 end) (schemaObjects d).

(** [selectedSchema?.properties || []] *)
Definition properties (d : option ContractDetail) (selectedSchemaName : string)
    : list SchemaProperty :=
  match selectedSchema d selectedSchemaName with
  | Some s => list_or_nil (so_properties s)
  | None => []
  end.

(** A template literal prints [undefined] as ["undefined"]. *)
Definition template_str (o : option string) : string :=
  match o with Some s => s | None => "undefined" end.

(** [`${selectedContractId}#${selectedSchemaName}#${p.name}`] *)
Definition property_entity_id (st : State) (p : SchemaProperty) : string :=
  selectedContractId st ++ "#" ++ selectedSchemaName st ++ "#" ++ template_str (sp_name p).

(** The values offered by the property select. *)
Definition property_options (st : State) (d : option ContractDetail) : list string :=
  map (property_entity_id st) (properties d (selectedSchemaName st)).

(** *** [handleUCColumnSelect] *)

Record UCAssetInfo := {
  catalog_name : string;
  schema_name : string;
  object_name : string;
  full_name : string;
  asset_type : string;
  description : option string;
  column_name : option string
}.

(** The handler with [ucAssetDialogOpen] carried beside the state; [post]
    gives how the request settles, and the effects are listed in the order
    they happen, down to the synchronous part of the [selectProperty] it
    starts. *)
Definition handleUCColumnSelect (post : LinkPayload -> PostOutcome) (st : State)
    (ucAssetDialogOpen : bool) (asset : UCAssetInfo) : State * bool * list Effect :=
  if negb (truthy (str_or (column_name asset) "")) then (st, ucAssetDialogOpen, []) else
  match selectedProperty st with
  | None => (st, ucAssetDialogOpen, [])
  | Some sp =>
      let entityId := full_name asset in
      let payload := {| p_entity_id := entityId; p_entity_type := "uc_column";
                        p_iri := value sp |} in
      let fail msg :=
        (st, ucAssetDialogOpen,
         [EPost links_post_path payload;
          EToast VDestructive (or_else msg "search:properties.messages.assignFailed")]) in
      let success :=
        let st := setAssignDialogOpen st false in
        let (st', effs) := selectProperty_start st sp in
        (st', false, (EPost links_post_path payload
                      :: EToast VDefault "search:properties.messages.linkedSuccess" :: effs)%list) in
      match post payload with
      | PostResolved err =>
          (* [if (res.error) throw new Error(res.error)] *)
          if truthy (str_or err "") then fail (str_or err "") else success
      | PostRejected m => fail m
      end
  end.

(** *** What the page shows *)

(** The clear button: [(propertySearchQuery || selectedProperty)]. *)
Definition clear_button_visible (st : State) : bool :=
  truthy (propertySearchQuery st)
  || match selectedProperty st with Some _ => true | None => false end.

(** The result dropdown: [isPropertyDropdownOpen && propertySearchResults.length > 0]. *)
Definition dropdown_visible (st : State) : bool :=
  isPropertyDropdownOpen st && (0 <? length (propertySearchResults st)).

(** The property card and the assign button: [selectedProperty && ...]. *)
Definition details_visible (st : State) : bool :=
  match selectedProperty st with Some _ => true | None => false end.

(** The domain/range card: [getDomainRange().length > 0]. *)
Definition domain_range_visible (st : State) : bool :=
  details_visible st && (0 <? length (getDomainRange st)).

(** [onFocus] of the search box. *)
Definition onFocus (st : State) : State :=
  setIsPropertyDropdownOpen st (0 <? length (propertySearchResults st)).

(** The Assign button of the dialog is shown for the contract-property
    target and enabled when a property is chosen. *)
Definition assign_enabled (st : State) : bool :=
  String.eqb (assignTargetType st) "data_contract_property"
  && truthy (selectedPropertyEntityId st).

(** *** Successive URL updates *)

(** The update that gives each field of [u2], or else of [u1]. *)
Definition override (u2 u1 : UrlUpdate) : UrlUpdate :=
  {| u_query := match u_query u2 with Some v => Some v | None => u_query u1 end;
     u_iri := match u_iri u2 with Some v => Some v | None => u_iri u1 end |}.

(** *** The search debounce *)

(** The search effect, keyed on [propertySearchQuery]: each change of the
    query runs the cleanup of the previous render, which clears the pending
    timer, and sets a new one 250 ms later whose callback runs
    [searchProperties] with the query of that render. Times are in ms;
    [timer] holds the deadline and the query captured. *)
Record Debounce := { dq : string; timer : option (nat * string) }.

(** Right after mounting at time 0: the effect ran once. *)
Definition mount_debounce (initialQuery : string) : Debounce :=
  {| dq := initialQuery; timer := Some (250, initialQuery) |}.

(** A timer due at or before time [t] has run by then; the queries
    searched for are returned. *)
Definition fire_due (d : Debounce) (t : nat) : list string * Debounce :=
  match timer d with
  | Some (dl, q) => if dl <=? t then ([q], {| dq := dq d; timer := None |}) else ([], d)
  | None => ([], d)
  end.

(** [setPropertySearchQuery(q)] at time [t]; setting the value it already
    has renders nothing and re-runs no effect. *)
Definition type_query (d : Debounce) (t : nat) (q : string) : Debounce :=
  if String.eqb q (dq d) then d
  else {| dq := q; timer := Some (t + 250, q) |}.

(** A sequence of edits of the search box, each with its time. *)
Fixpoint typing (d : Debounce) (ks : list (nat * string)) : list string * Debounce :=
  match ks with
  | [] => ([], d)
  | (t, q) :: rest =>
      let (f1, d1) := fire_due d t in
      let (f2, d2) := typing (type_query d1 t q) rest in
      ((f1 ++ f2)%list, d2)
  end.

(** The queries searched for, in order, once the last timer has run. *)
Definition searched (d : Debounce) (ks : list (nat * string)) : list string :=
  let (f, d') := typing d ks in
  (f ++ match timer d' with Some (_, q) => [q] | None => [] end)%list.

(** Each edit that is followed by 250 ms without another one, and the last. *)
Fixpoint quiet_queries (ks : list (nat * string)) : list string :=
  match ks with
  | [] => []
  | [(_, q)] => [q]
  | (t, q) :: ((t', _) :: _) as rest =>
      ((if t + 250 <=? t' then [q] else []) ++ quiet_queries rest)%list
  end.

(** Each edit changes the text (an [onChange] of the input). *)
Fixpoint all_changes (prev : string) (ks : list (nat * string)) : bool :=
  match ks with
  | [] => true
  | (_, q) :: r => negb (String.eqb q prev) && all_changes q r
  end.

End Panel.

(* ------------------------------------------------------------------ *)
(** ** Concrete inputs used by the examples below *)

Module Examples.
Import PropertiesSearch.

(** A search box holding a space, U+3000 (IDEOGRAPHIC SPACE), U+00A0
    (NO-BREAK SPACE) and a tab. *)
Definition ex_blank_query : string :=
  Str.utf8 32 ++ Str.utf8 12288 ++ Str.utf8 160 ++ Str.utf8 9 ++ EmptyString.

Definition ex_item : PropertyItem :=
  {| value := "https://ex.org/onto#CustomerId"; label := "CustomerId" |}.

(** A property whose IRI ends with [/] and that has no label. *)
Definition ex_slash_item : PropertyItem :=
  {| value := "http://ex.org/onto/"; label := "" |}.

(** Results of an earlier search are showing. *)
Definition ex_results_state : State :=
  setPropertySearchResults (initial "cust" None "?query=cust") [ex_item].

(** A second property, selected after [ex_item]. *)
Definition ex_item2 : PropertyItem :=
  {| value := "https://ex.org/onto#OrderId"; label := "OrderId" |}.

Definition ex_neighbor (d : string) : Neighbor :=
  {| direction := "outgoing"; predicate := "http://www.w3.org/2000/01/rdf-schema#comment";
     display := d; displayType := "literal" |}.

(** Every contract detail request answers with a contract named
    [Orders]. *)
Definition ex_api_orders (path : string) : Fetch ContractData :=
  Resolved (Some {| c_name := Some "Orders"; c_info_title := None |}).

(** Only contract [c1] exists; it has a title but no name. *)
Definition ex_api_c1 (path : string) : Fetch ContractData :=
  if String.eqb path "/api/data-contracts/c1"
  then Resolved (Some {| c_name := None; c_info_title := Some "Sales" |})
  else Rejected.

Definition ex_api_down (path : string) : Fetch ContractData := Rejected.

Definition ex_link (eid etype : string) : SemanticLink :=
  {| id := "l1"; entity_id := eid; entity_type := etype;
     iri := "https://ex.org/onto#CustomerId" |}.

(** [ex_item] is selected and its neighbours have arrived; nothing is in
    flight. *)
Definition ex_config_selected : Config :=
  {| cfg_state := setPropertyNeighbors (fst (selectProperty_start (initial "" None "") ex_item))
                                       [ex_neighbor "old"];
     cfg_pending := [] |}.

(** One call suspended at each of its awaits. *)
Definition ex_config_in_flight : Config :=
  {| cfg_state := fst (selectProperty_start (initial "" None "") ex_item2);
     cfg_pending := [AwaitNeighbors (value ex_item); AwaitLinks (value ex_item2)] |}.

(** The dialog is open on a fully resolved contract-property target. *)
Definition ex_assign_state : State :=
  let st := fst (selectProperty_start (initial "" None "") ex_item) in
  let st := setAssignDialogOpen st true in
  let st := handleAssignTargetTypeChange st "data_contract_property" in
  let st := onContractChange st "c1" in
  let st := onSchemaChange st "orders" in
  onPropertyChange st "c1#orders#total".

Definition ex_post_ok (payload : LinkPayload) : PostOutcome := PostResolved None.

End Examples.

(* ================================================================== *)
(** * Proofs *)

Import Str PropertiesSearch.

(** ** Strings *)

Lemma app_assoc_str (a b c : string) : (a ++ b) ++ c = a ++ (b ++ c).
Proof. induction a as [|x a IH]; simpl; [reflexivity | now rewrite IH]. Qed.

Lemma app_nil_str (a : string) : a ++ "" = a.
Proof. induction a as [|x a IH]; simpl; [reflexivity | now rewrite IH]. Qed.

Lemma forall_chars_app f a b :
  forall_chars f (a ++ b) = forall_chars f a && forall_chars f b.
Proof.
  induction a as [|x a IH]; simpl; [reflexivity|].
  now rewrite IH, andb_assoc.
Qed.

Lemma forall_chars_impl (f g : ascii -> bool) s :
  (forall c, f c = true -> g c = true) ->
  forall_chars f s = true -> forall_chars g s = true.
Proof.
  intros Hfg; induction s as [|x s IH]; simpl; [reflexivity|].
  intros H; apply andb_prop in H as [H1 H2].
  now rewrite (Hfg _ H1), (IH H2).
Qed.

Lemma split_on_app p sep x y :
  p sep = true -> forall_chars (fun c => negb (p c)) x = true ->
  split_on p (x ++ String sep y) = x :: split_on p y.
Proof.
  intros Hsep; induction x as [|c x IH]; simpl.
  - now rewrite Hsep.
  - intros H; apply andb_prop in H as [Hc Hx].
    rewrite (IH Hx). destruct (p c); [discriminate | reflexivity].
Qed.

Lemma split_on_none p x :
  forall_chars (fun c => negb (p c)) x = true -> split_on p x = [x].
Proof.
  induction x as [|c x IH]; simpl; [reflexivity|].
  intros H; apply andb_prop in H as [Hc Hx].
  rewrite (IH Hx). destruct (p c); [discriminate | reflexivity].
Qed.

Lemma trim_start_blank s : forall_chars is_ws s = true -> trim_start s = "".
Proof.
  induction s as [|c s IH]; simpl; [reflexivity|].
  intros H; apply andb_prop in H as [Hc Hs]. rewrite Hc. now apply IH.
Qed.

Lemma trim_blank s : forall_chars is_ws s = true -> trim s = "".
Proof. intros H. unfold trim. now rewrite (trim_start_blank s H). Qed.

Lemma trim_start_utf8_ws cp r :
  In cp ws_code_points -> trim_start (utf8 cp ++ r) = trim_start r.
Proof. intros H. repeat (destruct H as [<-|H]; [reflexivity|]). destruct H. Qed.

Lemma blank_trim_start s : blank s -> trim_start s = "".
Proof. induction 1 as [|cp r Hin _ IH]; [reflexivity|]. now rewrite trim_start_utf8_ws. Qed.

(** Every blank string, Unicode white space included, trims to [""]. *)
Lemma blank_trim s : blank s -> trim s = "".
Proof. intros H. unfold trim. now rewrite (blank_trim_start s H). Qed.

(** ** Form-urlencoding round trip *)

Lemma replace_plus_app a b :
  Url.replace_plus (a ++ b) = Url.replace_plus a ++ Url.replace_plus b.
Proof. induction a as [|x a IH]; simpl; [reflexivity | now rewrite IH]. Qed.

Lemma encode_char_decode c rest :
  Url.percent_decode (Url.replace_plus (Url.encode_char c ++ rest))
  = String c (Url.percent_decode (Url.replace_plus rest)).
Proof.
  rewrite replace_plus_app.
  destruct c as [[] [] [] [] [] [] [] []]; reflexivity.
Qed.

Lemma encode_char_safe c : forall_chars Url.pair_safe (Url.encode_char c) = true.
Proof. destruct c as [[] [] [] [] [] [] [] []]; reflexivity. Qed.

Lemma decode_encode_app s rest :
  Url.form_decode (Url.encode s ++ rest) = s ++ Url.form_decode rest.
Proof.
  unfold Url.form_decode.
  induction s as [|c s IH]; simpl; [reflexivity|].
  rewrite app_assoc_str, encode_char_decode. now rewrite IH.
Qed.

Lemma decode_encode s : Url.form_decode (Url.encode s) = s.
Proof.
  rewrite <- (app_nil_str (Url.encode s)), decode_encode_app.
  apply app_nil_str.
Qed.

Lemma encode_safe s : forall_chars Url.pair_safe (Url.encode s) = true.
Proof.
  induction s as [|c s IH]; simpl; [reflexivity|].
  now rewrite forall_chars_app, encode_char_safe, IH.
Qed.

Lemma split_first_eq_app x y :
  forall_chars Url.pair_safe x = true ->
  Url.split_first_eq (x ++ String "=" y) = (x, y).
Proof.
  induction x as [|c x IH]; simpl; [reflexivity|].
  intros H; apply andb_prop in H as [Hc Hx].
  rewrite (IH Hx). unfold Url.pair_safe in Hc.
  destruct (Ascii.eqb c "="); [now rewrite orb_true_r in Hc | reflexivity].
Qed.

Lemma encode_no_amp s :
  forall_chars (fun c => negb (is_char "&" c)) (Url.encode s) = true.
Proof.
  apply forall_chars_impl with (f := Url.pair_safe); [|apply encode_safe].
  intros c. unfold Url.pair_safe, is_char.
  destruct (Ascii.eqb c "&"); simpl; auto.
Qed.

Lemma serialize_pair_safe_amp kv :
  forall_chars (fun c => negb (is_char "&" c)) (Url.serialize_pair kv) = true.
Proof.
  unfold Url.serialize_pair. rewrite !forall_chars_app, !encode_no_amp.
  reflexivity.
Qed.

Lemma serialize_pair_decode kv :
  (let '(n, v) := Url.split_first_eq (Url.serialize_pair kv) in
   [(Url.form_decode n, Url.form_decode v)]) = [kv].
Proof.
  destruct kv as [k v]. unfold Url.serialize_pair; simpl fst; simpl snd.
  change ("=" ++ Url.encode v) with (String "=" (Url.encode v)).
  rewrite (split_first_eq_app _ _ (encode_safe k)).
  now rewrite !decode_encode.
Qed.

Lemma truthy_serialize_pair kv : truthy (Url.serialize_pair kv) = true.
Proof.
  destruct kv as [k v]; unfold Url.serialize_pair; simpl.
  destruct (Url.encode k); reflexivity.
Qed.

Lemma parse_body_to_string ps :
  flat_map (fun seq =>
              if truthy seq then
                let (n, v) := Url.split_first_eq seq in [(Url.form_decode n, Url.form_decode v)]
              else [])
           (split_on (is_char "&") (Url.to_string ps)) = ps.
Proof.
  unfold Url.to_string.
  induction ps as [|kv ps IH]; [reflexivity|].
  destruct ps as [|kv' ps].
  - simpl map. simpl String.concat.
    rewrite split_on_none by apply serialize_pair_safe_amp.
    simpl flat_map. rewrite truthy_serialize_pair, serialize_pair_decode. reflexivity.
  - change (String.concat "&" (map Url.serialize_pair (kv :: kv' :: ps)))
      with (Url.serialize_pair kv ++ String "&" (String.concat "&" (map Url.serialize_pair (kv' :: ps)))).
    rewrite split_on_app by (reflexivity || apply serialize_pair_safe_amp).
    simpl flat_map at 1. rewrite truthy_serialize_pair, serialize_pair_decode.
    simpl app. f_equal. exact IH.
Qed.

Lemma parse_to_string ps : Url.parse (String "?" (Url.to_string ps)) = ps.
Proof. unfold Url.parse. simpl. apply parse_body_to_string. Qed.

(** ** [updateUrl] *)

Lemma str_or_present o : present (Some (str_or o "")) = present o.
Proof. destruct o as [v|]; simpl; [destruct v; reflexivity | reflexivity]. Qed.

Lemma encode_no_hash s :
  forall_chars (fun c => negb (Ascii.eqb c "#")) (Url.encode s) = true.
Proof.
  apply forall_chars_impl with (f := Url.pair_safe); [|apply encode_safe].
  intros c. unfold Url.pair_safe.
  destruct (Ascii.eqb c "#"); simpl; rewrite ?orb_true_r; auto.
Qed.

Lemma to_string_no_hash ps :
  forall_chars (fun c => negb (Ascii.eqb c "#")) (Url.to_string ps) = true.
Proof.
  assert (Hpair : forall kv, forall_chars (fun c => negb (Ascii.eqb c "#"))
                                          (Url.serialize_pair kv) = true).
  { intros [k v]. unfold Url.serialize_pair. simpl fst; simpl snd.
    rewrite forall_chars_app, encode_no_hash. simpl. apply encode_no_hash. }
  unfold Url.to_string. induction ps as [|kv ps IH]; [reflexivity|].
  destruct ps as [|kv' ps]; [apply Hpair|].
  change (String.concat "&" (map Url.serialize_pair (kv :: kv' :: ps)))
    with (Url.serialize_pair kv ++ String "&" (String.concat "&" (map Url.serialize_pair (kv' :: ps)))).
  rewrite forall_chars_app, Hpair. simpl. exact IH.
Qed.

Lemma take_until_hash_id s :
  forall_chars (fun c => negb (Ascii.eqb c "#")) s = true -> Url.take_until_hash s = s.
Proof.
  induction s as [|c s IH]; simpl; [reflexivity|].
  intros H; apply andb_prop in H as [Hc Hs].
  destruct (Ascii.eqb c "#"); [discriminate | now rewrite IH].
Qed.

Lemma search_of_properties_url qs :
  truthy qs = true ->
  forall_chars (fun c => negb (Ascii.eqb c "#")) qs = true ->
  Url.search_of_url ("/search/properties?" ++ qs) = String "?" qs.
Proof.
  intros Ht Hh. simpl. rewrite (take_until_hash_id _ Hh).
  destruct qs; [discriminate | reflexivity].
Qed.

Lemma updateUrl_nav search u :
  let q := merged "query" (u_query u) search in
  let i := merged "iri" (u_iri u) search in
  updateUrl search u =
  {| nav_to := if truthy q || truthy i
               then "/search/properties?" ++ Url.to_string (params_of q i)
               else "/search/properties";
     nav_replace := true |}.
Proof.
  cbv zeta. unfold updateUrl, params_of. fold (merged "query" (u_query u) search).
  fold (merged "iri" (u_iri u) search).
  destruct (truthy (merged "query" (u_query u) search)) eqn:Hq,
           (truthy (merged "iri" (u_iri u) search)) eqn:Hi; reflexivity.
Qed.

Lemma updateUrl_after search u :
  Url.parse (Url.search_of_url (nav_to (updateUrl search u)))
  = params_of (merged "query" (u_query u) search) (merged "iri" (u_iri u) search).
Proof.
  rewrite updateUrl_nav. cbn [nav_to].
  destruct (truthy (merged "query" (u_query u) search) ||
            truthy (merged "iri" (u_iri u) search)) eqn:H.
  - rewrite search_of_properties_url; [apply parse_to_string| |apply to_string_no_hash].
    unfold params_of.
    destruct (truthy (merged "query" (u_query u) search)),
             (truthy (merged "iri" (u_iri u) search)); try discriminate; reflexivity.
  - apply orb_false_elim in H as [Hq Hi]. unfold params_of. rewrite Hq, Hi.
    reflexivity.
Qed.

Lemma get_query_params_of q i : Url.get "query" (params_of q i) = present (Some q).
Proof. unfold params_of; simpl. destruct (truthy q), (truthy i); reflexivity. Qed.

Lemma get_iri_params_of q i : Url.get "iri" (params_of q i) = present (Some i).
Proof. unfold params_of; simpl. destruct (truthy q), (truthy i); reflexivity. Qed.

Lemma present_merged k upd search :
  present (Some (merged k upd search))
  = present (match upd with Some v => Some v | None => Url.get k (Url.parse search) end).
Proof. destruct upd; [reflexivity | apply str_or_present]. Qed.

Lemma truthy_present v : present (Some v) = if truthy v then Some v else None.
Proof. reflexivity. Qed.

(** After [updateUrlSt], the [query] and [iri] parameters of the new
    location are the merged values. *)
Lemma updateUrlSt_params st u :
  Url.get "query" (url_params (updateUrlSt st u))
  = present (match u_query u with Some v => Some v
             | None => Url.get "query" (url_params st) end) /\
  Url.get "iri" (url_params (updateUrlSt st u))
  = present (match u_iri u with Some v => Some v
             | None => Url.get "iri" (url_params st) end).
Proof.
  unfold url_params, updateUrlSt, navigate, setLocationSearch. cbn [locationSearch].
  rewrite updateUrl_after, get_query_params_of, get_iri_params_of.
  now rewrite !present_merged.
Qed.

(** C1: for every current location and every partial update, [updateUrl]
    navigates with [replace]; in the location it reaches, [query] and [iri]
    hold the updated value when the update gives one and the prior value
    otherwise, and are absent when that value is empty; the target is
    [/search/properties?] followed by the encoded remaining parameters, or
    the bare path when both are absent. *)
Theorem updateUrl_spec (search : string) (u : UrlUpdate) :
  let nav := updateUrl search u in
  let before := Url.parse search in
  let after := Url.parse (Url.search_of_url (nav_to nav)) in
  let q := match u_query u with Some v => Some v | None => Url.get "query" before end in
  let i := match u_iri u with Some v => Some v | None => Url.get "iri" before end in
  nav_replace nav = true /\
  Url.get "query" after = present q /\
  Url.get "iri" after = present i /\
  nav_to nav = match present q, present i with
               | None, None => "/search/properties"
               | pq, pi => "/search/properties?"
                           ++ Url.to_string (app (opt_param "query" pq) (opt_param "iri" pi))
               end.
Proof.
  cbv zeta.
  rewrite updateUrl_after, get_query_params_of, get_iri_params_of, !present_merged.
  repeat split.
  rewrite updateUrl_nav. cbn [nav_to].
  rewrite <- !present_merged, !truthy_present. unfold params_of.
  destruct (truthy (merged "query" (u_query u) search)),
           (truthy (merged "iri" (u_iri u) search)); reflexivity.
Qed.

(** ** Debounced search *)

Lemma updateUrlSt_fields st u :
  propertySearchQuery (updateUrlSt st u) = propertySearchQuery st /\
  propertySearchResults (updateUrlSt st u) = propertySearchResults st /\
  isPropertyDropdownOpen (updateUrlSt st u) = isPropertyDropdownOpen st /\
  selectedProperty (updateUrlSt st u) = selectedProperty st /\
  propertyIri (updateUrlSt st u) = propertyIri st /\
  propertyLabel (updateUrlSt st u) = propertyLabel st /\
  propertyNeighbors (updateUrlSt st u) = propertyNeighbors st /\
  semanticLinks (updateUrlSt st u) = semanticLinks st /\
  assignDialogOpen (updateUrlSt st u) = assignDialogOpen st /\
  assignTargetType (updateUrlSt st u) = assignTargetType st /\
  selectedContractId (updateUrlSt st u) = selectedContractId st /\
  selectedSchemaName (updateUrlSt st u) = selectedSchemaName st /\
  selectedPropertyEntityId (updateUrlSt st u) = selectedPropertyEntityId st.
Proof. repeat split. Qed.

(** C5: when the search box is empty or only white space (any of the
    Unicode white space [String.prototype.trim] strips), the debounced
    handler issues no request, empties the results, closes the dropdown and
    leaves no [query] parameter in the URL. *)
Theorem searchProperties_blank_query (st : State)
    (Hblank : blank (propertySearchQuery st)) :
  let st' := fst (searchProperties_start st) in
  snd (searchProperties_start st) = [] /\
  propertySearchResults st' = [] /\
  isPropertyDropdownOpen st' = false /\
  Url.get "query" (url_params st') = None.
Proof.
  unfold searchProperties_start. rewrite (blank_trim _ Hblank). cbn zeta.
  simpl negb. cbv iota. simpl fst; simpl snd.
  destruct (updateUrlSt_params
              (setIsPropertyDropdownOpen (setPropertySearchResults st []) false)
              {| u_query := Some ""; u_iri := None |}) as [Hq _].
  refine (conj eq_refl (conj eq_refl (conj eq_refl _))). exact Hq.
Qed.

Lemma searchProperties_blank_query_witness :
  blank (propertySearchQuery (initial Examples.ex_blank_query None "?query=abc&iri=x")) /\
  snd (searchProperties_start (initial Examples.ex_blank_query None "?query=abc&iri=x")) = [] /\
  Url.get "query" (url_params (fst (searchProperties_start (initial Examples.ex_blank_query None "?query=abc&iri=x"))))
  = None.
Proof.
  assert (Hb : blank (propertySearchQuery (initial Examples.ex_blank_query None "?query=abc&iri=x"))).
  { change (blank Examples.ex_blank_query). unfold Examples.ex_blank_query.
    repeat (apply blank_cons; [simpl; tauto|]). apply blank_nil. }
  split; [exact Hb|].
  pose proof (searchProperties_blank_query (initial Examples.ex_blank_query None "?query=abc&iri=x")
                Hb) as H.
  cbv zeta in H. destruct H as [H1 [_ [_ H4]]]. split; [exact H1 | exact H4].
Defined.

(** C10: for a non-blank query the handler issues exactly the search
    request; when it fails, the results are emptied and the dropdown closed
    but the location is left as it was, whereas a successful answer writes
    the query into the [query] parameter. *)
Theorem searchProperties_failure_keeps_url (st : State)
    (Hq : truthy (trim (propertySearchQuery st)) = true) :
  let q := propertySearchQuery st in
  snd (searchProperties_start st) = [EGet (search_path q)] /\
  fst (searchProperties_start st) = st /\
  propertySearchResults (searchProperties_resume st q Rejected) = [] /\
  isPropertyDropdownOpen (searchProperties_resume st q Rejected) = false /\
  locationSearch (searchProperties_resume st q Rejected) = locationSearch st /\
  (forall data, Url.get "query" (url_params (searchProperties_resume st q (Resolved data)))
                = Some q).
Proof.
  cbv zeta. unfold searchProperties_start. rewrite Hq. simpl negb; cbv iota.
  repeat split.
  intros data. unfold searchProperties_resume.
  destruct (updateUrlSt_params
              (setIsPropertyDropdownOpen
                 (setPropertySearchResults st (list_or_nil data))
                 (0 <? length (list_or_nil data)))
              {| u_query := Some (propertySearchQuery st); u_iri := None |}) as [H _].
  rewrite H. simpl. unfold present.
  destruct (propertySearchQuery st) as [|c r] eqn:E; [|reflexivity].
  discriminate Hq.
Qed.

Lemma searchProperties_failure_keeps_url_witness :
  truthy (trim (propertySearchQuery (initial "customer" None "?query=cust"))) = true /\
  locationSearch (searchProperties_resume (initial "customer" None "?query=cust")
                    "customer" Rejected) = "?query=cust".
Proof.
  split; [reflexivity|].
  destruct (searchProperties_failure_keeps_url (initial "customer" None "?query=cust")
              eq_refl) as [_ [_ [_ [_ [H _]]]]].
  exact H.
Defined.

(** ** [clearSearch] *)


(** C8, as stated, fails: [clearSearch] does not touch the result list. *)
Lemma clearSearch_keeps_results :
  propertySearchResults (clearSearch Examples.ex_results_state) <> [].
Proof. vm_compute. discriminate. Qed.

(** C8 (amended): [clearSearch] removes [query] and [iri] from the URL and
    empties the search text, the selection, the IRI, the neighbours and the
    links, and closes the dropdown; it leaves the result list as it was,
    and the debounced handler that then runs for the empty query empties it
    (with no request, and with both parameters still absent). *)
Theorem clearSearch_spec (st : State) :
  let st' := clearSearch st in
  Url.get "query" (url_params st') = None /\
  Url.get "iri" (url_params st') = None /\
  propertySearchQuery st' = "" /\
  selectedProperty st' = None /\
  propertyIri st' = "" /\
  propertyNeighbors st' = [] /\
  semanticLinks st' = [] /\
  isPropertyDropdownOpen st' = false /\
  propertySearchResults st' = propertySearchResults st /\
  let st'' := fst (searchProperties_start st') in
  snd (searchProperties_start st') = [] /\
  propertySearchResults st'' = [] /\
  isPropertyDropdownOpen st'' = false /\
  Url.get "query" (url_params st'') = None /\
  Url.get "iri" (url_params st'') = None.
Proof.
  cbv zeta.
  set (st0 := setIsPropertyDropdownOpen
                (setSemanticLinks
                   (setPropertyNeighbors
                      (setPropertyLabel
                         (setPropertyIri
                            (setSelectedProperty (setPropertySearchQuery st "") None) "") "") [])
                   []) false).
  assert (Hc : clearSearch st = updateUrlSt st0 {| u_query := Some ""; u_iri := Some "" |})
    by reflexivity.
  rewrite Hc.
  destruct (updateUrlSt_params st0 {| u_query := Some ""; u_iri := Some "" |}) as [Hq Hi].
  simpl in Hq, Hi.
  set (st1 := updateUrlSt st0 {| u_query := Some ""; u_iri := Some "" |}) in *.
  assert (Hs : searchProperties_start st1
               = (updateUrlSt (setIsPropertyDropdownOpen (setPropertySearchResults st1 []) false)
                              {| u_query := Some ""; u_iri := None |}, [])) by reflexivity.
  rewrite Hs. simpl fst; simpl snd.
  destruct (updateUrlSt_params (setIsPropertyDropdownOpen (setPropertySearchResults st1 []) false)
              {| u_query := Some ""; u_iri := None |}) as [Hq2 Hi2].
  assert (Hi' : Url.get "iri" (url_params (setIsPropertyDropdownOpen
                                             (setPropertySearchResults st1 []) false)) = None)
    by exact Hi.
  rewrite Hq2, Hi2. cbv iota. rewrite Hi'.
  repeat split; assumption.
Qed.

(** ** Assignment cascade *)

(** C7: changing the target type clears contract, schema and property;
    choosing a contract clears schema and property; choosing a schema
    clears the property; each handler leaves the upstream choices alone. *)
Theorem cascade_resets_downstream (st : State) (v : string) :
  (assignTargetType (handleAssignTargetTypeChange st v) = v /\
   selectedContractId (handleAssignTargetTypeChange st v) = "" /\
   selectedSchemaName (handleAssignTargetTypeChange st v) = "" /\
   selectedPropertyEntityId (handleAssignTargetTypeChange st v) = "") /\
  (assignTargetType (onContractChange st v) = assignTargetType st /\
   selectedContractId (onContractChange st v) = v /\
   selectedSchemaName (onContractChange st v) = "" /\
   selectedPropertyEntityId (onContractChange st v) = "") /\
  (assignTargetType (onSchemaChange st v) = assignTargetType st /\
   selectedContractId (onSchemaChange st v) = selectedContractId st /\
   selectedSchemaName (onSchemaChange st v) = v /\
   selectedPropertyEntityId (onSchemaChange st v) = "") /\
  (selectedContractId (onPropertyChange st v) = selectedContractId st /\
   selectedSchemaName (onPropertyChange st v) = selectedSchemaName st /\
   selectedPropertyEntityId (onPropertyChange st v) = v).
Proof. repeat split. Qed.

(** ** [selectProperty] *)

Lemma selectProperty_start_eq st p :
  selectProperty_start st p =
  (updateUrlSt
     (setIsPropertyDropdownOpen
        (setPropertySearchQuery
           (setPropertyLabel
              (setPropertyIri (setSelectedProperty st (Some p)) (value p))
              (displayLabel p))
           (displayLabel p ++ " - " ++ value p))
        false)
     {| u_query := None; u_iri := Some (value p) |},
   [EGet (neighbors_path (value p))]).
Proof. reflexivity. Qed.

(** C9, as stated, fails: an IRI ending in [/] with no label is shown
    whole, not as its (empty) last segment. *)
Lemma selectProperty_label_not_last_segment :
  propertyLabel (fst (selectProperty_start (initial "" None "") Examples.ex_slash_item))
  <> iri_tail (value Examples.ex_slash_item).
Proof. vm_compute. discriminate. Qed.

(** C9 (amended): [selectProperty] selects the property and sets its IRI;
    the display label is the property's label when it is non-empty and,
    trimmed, differs from the IRI; otherwise it is the text after the last
    [#] when the IRI has one, else the text after the last [/], or the whole
    IRI when that is empty; the search text becomes [label - iri], the
    dropdown closes, the [iri] parameter becomes the IRI (absent when the
    IRI is empty), [query] is kept, and the neighbours request is issued. *)
Theorem selectProperty_spec (st : State) (p : PropertyItem) :
  let st' := fst (selectProperty_start st p) in
  let fallback :=
    if includes_char "#" (value p)
    then pop_last (split_on (is_char "#") (value p))
    else or_else (pop_last (split_on (is_char "/") (value p))) (value p) in
  selectedProperty st' = Some p /\
  propertyIri st' = value p /\
  propertyLabel st' = (if truthy (label p) && negb (String.eqb (trim (label p)) (value p))
                       then label p else fallback) /\
  propertySearchQuery st' = propertyLabel st' ++ " - " ++ value p /\
  isPropertyDropdownOpen st' = false /\
  Url.get "iri" (url_params st') = present (Some (value p)) /\
  Url.get "query" (url_params st') = present (Url.get "query" (url_params st)) /\
  snd (selectProperty_start st p) = [EGet (neighbors_path (value p))].
Proof.
  cbv zeta. rewrite selectProperty_start_eq. simpl fst; simpl snd.
  match goal with |- context [updateUrlSt ?s ?u] =>
    destruct (updateUrlSt_params s u) as [Hq Hi] end.
  rewrite Hq, Hi.
  assert (Hl : displayLabel p =
               (if truthy (label p) && negb (String.eqb (trim (label p)) (value p))
                then label p
                else if includes_char "#" (value p)
                     then pop_last (split_on (is_char "#") (value p))
                     else or_else (pop_last (split_on (is_char "/") (value p))) (value p))).
  { unfold displayLabel.
    destruct (truthy (label p)), (String.eqb (trim (label p)) (value p)); reflexivity. }
  repeat split.
  all: cbn [selectedProperty propertyIri propertyLabel propertySearchQuery isPropertyDropdownOpen updateUrlSt navigate setLocationSearch setIsPropertyDropdownOpen setPropertySearchQuery setPropertyLabel setPropertyIri setSelectedProperty].
  all: try exact Hl.
  all: try reflexivity.
Qed.

(** ** Link enrichment *)

Lemma enrich_loop_app api links acc :
  enrich_loop api links acc = (acc ++ map (enrich_one api) links)%list.
Proof.
  revert acc; induction links as [|l links IH]; intros acc; simpl.
  - now rewrite app_nil_r.
  - rewrite IH. now rewrite <- app_assoc.
Qed.

Lemma truthy_nonempty s : s <> "" -> truthy s = true.
Proof. destruct s; [contradiction | reflexivity]. Qed.

Lemma enrich_one_base api l : base_link (enrich_one api l) = l.
Proof.
  unfold enrich_one.
  destruct (String.eqb (entity_type l) "data_contract_property").
  - cbv zeta. destruct (truthy _); [destruct (api _)|]; reflexivity.
  - destruct (String.eqb (entity_type l) "uc_column"); [reflexivity|].
    destruct (String.eqb (entity_type l) "data_contract"); [destruct (api _)|]; reflexivity.
Qed.

(** C2, as stated, fails: a contract-property link whose contract id is
    empty is not looked up and keeps its raw id as its name. *)
Lemma enrich_empty_contract_id :
  map entity_name (enrichSemanticLinksWithNames Examples.ex_api_orders
                     [Examples.ex_link "#orders#total" "data_contract_property"])
  <> ["Orders#orders.total"].
Proof. vm_compute. discriminate. Qed.

(** C2 (amended): the enrichment returns one link per input link, in the
    same order, each the input link with a name: for a contract property
    whose id, split on [#], starts with a non-empty contract id, the trimmed
    [title#schema.property] (missing parts empty, the dot kept), the title
    being the contract's name, else its info title, else the contract id;
    the raw id when that contract id is empty or the fetch fails; for a
    contract, the title of the fetched contract, or the raw id when the fetch
    fails; for any other type, the raw id. *)
Theorem enrich_names_spec (api : string -> Fetch ContractData) (links : list SemanticLink) :
  let out := enrichSemanticLinksWithNames api links in
  length out = length links /\
  forall n l, nth_error links n = Some l ->
  exists e, nth_error out n = Some e /\ base_link e = l /\
  (let parts := split_on (is_char "#") (entity_id l) in
   let cid := nth 0 parts "" in
   entity_type l = "data_contract_property" ->
   (cid = "" -> entity_name e = entity_id l) /\
   (cid <> "" -> api (contract_path cid) = Rejected -> entity_name e = entity_id l) /\
   (forall data, cid <> "" -> api (contract_path cid) = Resolved data ->
      entity_name e = trim (contract_title data cid ++ "#" ++ nth 1 parts ""
                            ++ "." ++ nth 2 parts ""))) /\
  (entity_type l = "data_contract" ->
   (api (contract_path (entity_id l)) = Rejected -> entity_name e = entity_id l) /\
   (forall data, api (contract_path (entity_id l)) = Resolved data ->
      entity_name e = contract_title data (entity_id l))) /\
  (entity_type l <> "data_contract_property" -> entity_type l <> "data_contract" ->
   entity_name e = entity_id l).
Proof.
  cbv zeta. unfold enrichSemanticLinksWithNames. rewrite enrich_loop_app. simpl app.
  split; [apply length_map|].
  intros n l Hl. exists (enrich_one api l).
  split; [now apply map_nth_error|].
  split; [apply enrich_one_base|].
  split; [|split].
  - intros Ht. unfold enrich_one. rewrite Ht, String.eqb_refl. cbv zeta.
    split; [|split].
    + intros Hc. rewrite Hc. reflexivity.
    + intros Hc Ha. rewrite (truthy_nonempty _ Hc), Ha. reflexivity.
    + intros data Hc Ha. rewrite (truthy_nonempty _ Hc), Ha. reflexivity.
  - intros Ht. unfold enrich_one. rewrite Ht.
    change (String.eqb "data_contract" "data_contract_property") with false.
    change (String.eqb "data_contract" "uc_column") with false.
    rewrite String.eqb_refl. split.
    + intros Ha. rewrite Ha. reflexivity.
    + intros data Ha. rewrite Ha. reflexivity.
  - intros H1 H2. unfold enrich_one.
    apply String.eqb_neq in H1, H2. rewrite H1, H2.
    destruct (String.eqb (entity_type l) "uc_column"); reflexivity.
Qed.

(** The spec's example: [c1#orders#total] is named after the title of
    [c1], or keeps its raw id when the contract cannot be fetched. *)
Example enrich_c1_example :
  map entity_name (enrichSemanticLinksWithNames Examples.ex_api_c1
                     [Examples.ex_link "c1#orders#total" "data_contract_property"])
  = ["Sales#orders.total"] /\
  map entity_name (enrichSemanticLinksWithNames Examples.ex_api_down
                     [Examples.ex_link "c1#orders#total" "data_contract_property"])
  = ["c1#orders#total"].
Proof. split; vm_compute; reflexivity. Qed.

(** ** Deep links: [iri] round trip *)

Lemma selectProperty_selected st p :
  selectedProperty (fst (selectProperty_start st p)) = Some p.
Proof. reflexivity. Qed.

Lemma selectProperty_iri_param st p :
  truthy (value p) = true ->
  Url.get "iri" (url_params (fst (selectProperty_start st p))) = Some (value p).
Proof.
  intros Hv. rewrite selectProperty_start_eq. simpl fst.
  match goal with |- context [updateUrlSt ?s ?u] =>
    destruct (updateUrlSt_params s u) as [_ Hi] end.
  rewrite Hi. simpl. now rewrite Hv.
Qed.

(** C3, as stated, fails: the synthetic item for an IRI ending in [/] is
    labelled with the whole IRI, not with its (empty) last segment. *)
Lemma iri_fallback_label_whole_iri :
  match selectedProperty
          (fst (loadFromUrl "" (initial "" None "?iri=http%3A%2F%2Fex.org%2Fonto%2F")
                  (Resolved (Some []))))
  with
  | Some q => value q = "http://ex.org/onto/" /\ label q <> iri_tail (value q)
  | None => False
  end.
Proof. vm_compute. split; [reflexivity | discriminate]. Qed.

(** C3 (amended): selecting a property with a non-empty IRI writes it as
    the [iri] parameter; loading that location, when the 10-hit search
    succeeds, selects a property with that IRI: the first hit whose value
    matches, or else a synthetic item labelled with the IRI's last [/] or
    [#] segment, or with the whole IRI when that segment is empty; when the
    search fails the selection is left as it was. *)
Theorem iri_url_roundtrip (st st0 : State) (p : PropertyItem) (initialQuery : string)
    (data : option (list PropertyItem))
    (Hv : truthy (value p) = true)
    (Hloc : locationSearch st0 = locationSearch (fst (selectProperty_start st p))) :
  Url.get "iri" (url_params (fst (selectProperty_start st p))) = Some (value p) /\
  (exists q,
     selectedProperty (fst (loadFromUrl initialQuery st0 (Resolved data))) = Some q /\
     value q = value p /\
     (find (fun x => String.eqb (value x) (value p)) (list_or_nil data) = Some q \/
      (find (fun x => String.eqb (value x) (value p)) (list_or_nil data) = None /\
       q = {| value := value p; label := or_else (iri_tail (value p)) (value p) |}))) /\
  selectedProperty (fst (loadFromUrl initialQuery st0 Rejected)) = selectedProperty st0.
Proof.
  pose proof (selectProperty_iri_param st p Hv) as Hi.
  assert (Hi0 : Url.get "iri" (Url.parse (locationSearch st0)) = Some (value p))
    by (rewrite Hloc; exact Hi).
  split; [exact Hi|]. unfold loadFromUrl. rewrite Hi0, Hv.
  set (st1 := match Url.get "query" (Url.parse (locationSearch st0)) with
              | Some q => if truthy q && negb (String.eqb q initialQuery)
                          then setPropertySearchQuery st0 q else st0
              | None => st0
              end).
  split.
  - destruct (find (fun x => String.eqb (value x) (value p)) (list_or_nil data)) as [m|] eqn:Hf.
    + exists m. destruct (selectProperty_start st1 m) as [st' effs] eqn:Hs. simpl fst.
      assert (Hsel : selectedProperty st' = Some m)
        by (rewrite <- (selectProperty_selected st1 m), Hs; reflexivity).
      apply find_some in Hf as [_ Hm]. apply String.eqb_eq in Hm.
      split; [exact Hsel|]. split; [exact Hm|]. left; reflexivity.
    + eexists. destruct (selectProperty_start st1 _) as [st' effs] eqn:Hs. simpl fst.
      split; [rewrite <- (selectProperty_selected st1 _), Hs; reflexivity|].
      split; [reflexivity|]. right; split; reflexivity.
  - simpl fst. subst st1.
    destruct (Url.get "query" (Url.parse (locationSearch st0))) as [q|]; [|reflexivity].
    destruct (truthy q && negb (String.eqb q initialQuery)); reflexivity.
Qed.

Lemma iri_url_roundtrip_witness :
  truthy (value Examples.ex_item) = true /\
  Url.get "iri" (url_params (fst (selectProperty_start (initial "" None "") Examples.ex_item)))
  = Some (value Examples.ex_item).
Proof.
  split; [reflexivity|].
  exact (proj1 (iri_url_roundtrip (initial "" None "") 
                  (initial "" None (locationSearch (fst (selectProperty_start
                                                          (initial "" None "") Examples.ex_item))))
                  Examples.ex_item "" None eq_refl eq_refl)).
Defined.

(** ** Selection and its in-flight fetches *)

(** C4, as stated, fails: selecting [ex_item2] keeps the neighbours of
    [ex_item]; and with [ex_item]'s neighbours request still in flight,
    its late answer overwrites those of [ex_item2]. *)
Lemma select_keeps_and_late_overwrites :
  let c := step Examples.ex_api_orders Examples.ex_config_selected (Select Examples.ex_item2) in
  selectedProperty (cfg_state c) = Some Examples.ex_item2 /\
  propertyNeighbors (cfg_state c) = [Examples.ex_neighbor "old"] /\
  let c2 := run Examples.ex_api_orders Examples.ex_config_in_flight
                [Select Examples.ex_item2;
                 NeighborsArrive 2 (Resolved (Some [Examples.ex_neighbor "new"]));
                 NeighborsArrive 0 (Resolved (Some [Examples.ex_neighbor "stale"]))] in
  selectedProperty (cfg_state c2) = Some Examples.ex_item2 /\
  propertyNeighbors (cfg_state c2) = [Examples.ex_neighbor "stale"].
Proof. vm_compute. repeat split. Qed.

(** C4 (amended): one property is selected at a time; selecting one sets
    it at once but keeps the neighbours and links shown so far, and queues
    its neighbours request; each answer, when it arrives, replaces the
    neighbours (or the enriched links) wholesale, whatever property is
    selected by then, so a late answer for an earlier selection overwrites
    the state. *)
Theorem selection_replaces_on_arrival (api : string -> Fetch ContractData) (c : Config)
    (p : PropertyItem) :
  (let c' := step api c (Select p) in
   selectedProperty (cfg_state c') = Some p /\
   propertyNeighbors (cfg_state c') = propertyNeighbors (cfg_state c) /\
   semanticLinks (cfg_state c') = semanticLinks (cfg_state c) /\
   cfg_pending c' = (cfg_pending c ++ [AwaitNeighbors (value p)])%list) /\
  (forall (n : nat) (v : string) (rn : Fetch (list Neighbor)),
   nth_error (cfg_pending c) n = Some (AwaitNeighbors v) ->
   let c' := step api c (NeighborsArrive n rn) in
   selectedProperty (cfg_state c') = selectedProperty (cfg_state c) /\
   propertyNeighbors (cfg_state c') =
     match rn with Resolved d => list_or_nil d | Rejected => [] end /\
   cfg_pending c' = (remove_nth n (cfg_pending c) ++ [AwaitLinks v])%list) /\
  (forall (m : nat) (w : string) (rl : Fetch (list SemanticLink)),
   nth_error (cfg_pending c) m = Some (AwaitLinks w) ->
   let c' := step api c (LinksArrive m rl) in
   selectedProperty (cfg_state c') = selectedProperty (cfg_state c) /\
   semanticLinks (cfg_state c') =
     match rl with
     | Resolved d => enrichSemanticLinksWithNames api (list_or_nil d)
     | Rejected => []
     end /\
   cfg_pending c' = remove_nth m (cfg_pending c)).
Proof.
  split; [|split].
  - cbv zeta. repeat split.
  - intros n v rn Hn. cbv zeta. simpl. rewrite Hn. simpl.
    destruct rn; repeat split.
  - intros m w rl Hm. cbv zeta. simpl. rewrite Hm. simpl.
    destruct rl; repeat split.
Qed.

Lemma selection_replaces_on_arrival_witness :
  nth_error (cfg_pending Examples.ex_config_in_flight) 0
    = Some (AwaitNeighbors (value Examples.ex_item)) /\
  propertyNeighbors
    (cfg_state (step Examples.ex_api_orders Examples.ex_config_in_flight
                  (NeighborsArrive 0 (Resolved (Some [Examples.ex_neighbor "late"])))))
  = [Examples.ex_neighbor "late"].
Proof.
  split; [reflexivity|].
  exact (proj1 (proj2 (proj1 (proj2
    (selection_replaces_on_arrival Examples.ex_api_orders Examples.ex_config_in_flight
       Examples.ex_item))
    0 (value Examples.ex_item) (Resolved (Some [Examples.ex_neighbor "late"])) eq_refl))).
Defined.

(** ** Submitting the assignment *)

(** C6: on the contract-property path, submitting without a property
    entity id shows an error and sends nothing; otherwise it posts
    [{entity_id, entity_type, iri = selected value}]; on success it closes
    the dialog, resets type, contract, schema and property, and selects the
    property again; on failure it shows the error message (or the generic
    one) and changes nothing. *)
Theorem handleAssign_contract_property (post : LinkPayload -> PostOutcome) (st : State)
    (sp : PropertyItem)
    (Hsel : selectedProperty st = Some sp)
    (Htype : assignTargetType st = "data_contract_property") :
  let payload := {| p_entity_id := selectedPropertyEntityId st;
                    p_entity_type := "data_contract_property";
                    p_iri := value sp |} in
  (selectedPropertyEntityId st = "" ->
   handleAssign post st
   = (st, [EToast VDestructive "search:properties.messages.selectPropertyTarget"])) /\
  (selectedPropertyEntityId st <> "" ->
   match post_error (post payload) with
   | Some msg =>
       handleAssign post st
       = (st, [EPost links_post_path payload;
               EToast VDestructive (or_else msg "search:properties.messages.assignFailed")])
   | None =>
       let st' := fst (handleAssign post st) in
       snd (handleAssign post st)
       = [EPost links_post_path payload;
          EToast VDefault "search:properties.messages.linkedSuccess";
          EGet (neighbors_path (value sp))] /\
       assignDialogOpen st' = false /\
       assignTargetType st' = "" /\
       selectedContractId st' = "" /\
       selectedSchemaName st' = "" /\
       selectedPropertyEntityId st' = "" /\
       st' = fst (selectProperty_start
                    (setSelectedPropertyEntityId
                       (setSelectedSchemaName
                          (setSelectedContractId
                             (setAssignTargetType (setAssignDialogOpen st false) "") "") "") "")
                    sp)
   end).
Proof.
  cbv zeta. unfold handleAssign. rewrite Hsel, Htype.
  change (truthy "data_contract_property") with true.
  rewrite String.eqb_refl. simpl negb. cbv iota.
  change (String.eqb "data_contract_property" "uc_column") with false.
  split.
  - intros He. rewrite He. reflexivity.
  - intros He. rewrite (truthy_nonempty _ He). simpl negb. cbv iota.
    unfold post_error.
    destruct (post _) as [err|msg].
    + destruct (truthy (str_or err "")); [reflexivity|].
      repeat split.
    + reflexivity.
Qed.

Lemma handleAssign_contract_property_witness :
  selectedProperty Examples.ex_assign_state = Some Examples.ex_item /\
  assignTargetType Examples.ex_assign_state = "data_contract_property" /\
  assignDialogOpen (fst (handleAssign Examples.ex_post_ok Examples.ex_assign_state)) = false.
Proof.
  split; [reflexivity|]. split; [reflexivity|].
  pose proof (proj2 (handleAssign_contract_property Examples.ex_post_ok Examples.ex_assign_state
                       Examples.ex_item eq_refl eq_refl)) as H.
  cbv zeta in H.
  assert (He : selectedPropertyEntityId Examples.ex_assign_state <> "") by (vm_compute; discriminate).
  specialize (H He). exact (proj1 (proj2 H)).
Defined.

(* ================================================================== *)
(** * Further properties of the component *)

Import Panel.

(** ** Helper facts *)

Lemma str_or_present_id q : str_or (present (Some q)) "" = q.
Proof. destruct q; reflexivity. Qed.

Lemma split_on_nonempty p s : split_on p s <> [].
Proof.
  destruct s as [|c r]; simpl; [discriminate|].
  destruct (p c); [discriminate|]. destruct (split_on p r); discriminate.
Qed.

Lemma split_on_single p r h : split_on p r = [h] -> h = r.
Proof.
  revert h; induction r as [|c r IH]; intros h; simpl.
  - now intros [= <-].
  - destruct (p c).
    + intros [= _ E]. now apply split_on_nonempty in E.
    + destruct (split_on p r) as [|h' t] eqn:E; [now apply split_on_nonempty in E|].
      intros [= <- Et]. subst t. now rewrite (IH h' eq_refl).
Qed.

Lemma pop_last_suffix p s : exists pre, s = pre ++ pop_last (split_on p s).
Proof.
  unfold pop_last. induction s as [|c r IH]; simpl; [now exists ""|].
  destruct IH as [pre Hpre].
  destruct (p c).
  - exists (String c pre). simpl. destruct (split_on p r) eqn:E;
      [now apply split_on_nonempty in E|]. rewrite Hpre at 1. reflexivity.
  - destruct (split_on p r) as [|h t] eqn:E; [now apply split_on_nonempty in E|].
    destruct t as [|h' t].
    + exists "". simpl. now rewrite (split_on_single p r h E).
    + exists (String c pre). rewrite Hpre at 1. reflexivity.
Qed.

Lemma forall_chars_true s : forall_chars (fun _ => true) s = true.
Proof. induction s; simpl; auto. Qed.

Lemma split_on_pieces (f p : ascii -> bool) s :
  forall_chars f s = true ->
  Forall (fun x => forall_chars (fun c => f c && negb (p c)) x = true) (split_on p s).
Proof.
  induction s as [|c r IH]; simpl; [now repeat constructor|].
  intros H; apply andb_prop in H as [Hc Hr]. specialize (IH Hr).
  destruct (p c) eqn:Ep; [now constructor|].
  destruct (split_on p r) as [|h t]; [constructor; [simpl; now rewrite Hc, Ep|constructor]|].
  inversion IH as [|? ? Hh Ht]; subst.
  constructor; [simpl; now rewrite Hc, Ep, Hh | exact Ht].
Qed.

Lemma last_Forall {A} (P : A -> Prop) l d : Forall P l -> P d -> P (last l d).
Proof.
  intros Hl Hd; induction Hl as [|x l Hx Hl IH]; [exact Hd|].
  destruct l; [exact Hx | exact IH].
Qed.

Lemma pop_last_no_sep (f p : ascii -> bool) s :
  forall_chars f s = true ->
  forall_chars (fun c => f c && negb (p c)) (pop_last (split_on p s)) = true.
Proof.
  intros H. unfold pop_last.
  apply (last_Forall (fun x => forall_chars (fun c => f c && negb (p c)) x = true));
    [now apply split_on_pieces | reflexivity].
Qed.

Lemma ws2_removable c0 c1 :
  ws2 c0 c1 = true -> removable c0 = true /\ removable c1 = true.
Proof.
  unfold ws2, removable. intros H. apply andb_prop in H as [H0 H1].
  apply Nat.eqb_eq in H0, H1. unfold is_ws. rewrite H0, H1. split; reflexivity.
Qed.

Lemma ws3_removable c0 c1 c2 :
  ws3 c0 c1 c2 = true -> removable c0 = true /\ removable c1 = true /\ removable c2 = true.
Proof.
  unfold ws3, removable. cbv zeta. intros H.
  assert (Hr : forall c, 128 <= nat_of_ascii c -> is_ws c || (128 <=? nat_of_ascii c) = true).
  { intros c Hc. apply orb_true_intro; right. now apply Nat.leb_le. }
  repeat match goal with
         | H : _ && _ = true |- _ => apply andb_prop in H as [? ?]
         | H : _ || _ = true |- _ => apply orb_prop in H as [?|?]
         | H : (_ =? _) = true |- _ => apply Nat.eqb_eq in H
         | H : (_ <=? _) = true |- _ => apply Nat.leb_le in H
         end; repeat split; apply Hr; lia.
Qed.

(** [trim_start] only drops removable bytes. *)
Lemma trim_start_keeps s :
  forall_chars removable s = false -> forall_chars removable (trim_start s) = false.
Proof.
  remember (String.length s) as n eqn:En. revert s En.
  induction n as [n IH] using lt_wf_ind. intros s En H.
  destruct s as [|c r]; [exact H|]. simpl trim_start.
  destruct (is_ws c) eqn:Ec.
  - apply (IH (String.length r)); [simpl in En; lia|reflexivity|].
    simpl in H. unfold removable at 1 in H. rewrite Ec in H. exact H.
  - destruct r as [|c1 r1]; [exact H|].
    destruct (ws2 c c1) eqn:E2.
    + destruct (ws2_removable _ _ E2) as [Ha Hb].
      apply (IH (String.length r1)); [simpl in En; lia|reflexivity|].
      simpl in H. rewrite Ha, Hb in H. exact H.
    + destruct r1 as [|c2 r2]; [exact H|].
      destruct (ws3 c c1 c2) eqn:E3; [|exact H].
      destruct (ws3_removable _ _ _ E3) as [Ha [Hb Hd]].
      apply (IH (String.length r2)); [simpl in En; lia|reflexivity|].
      simpl in H. rewrite Ha, Hb, Hd in H. exact H.
Qed.

Lemma trim_start_rev_keeps s :
  forall_chars removable s = false -> forall_chars removable (trim_start_rev s) = false.
Proof.
  remember (String.length s) as n eqn:En. revert s En.
  induction n as [n IH] using lt_wf_ind. intros s En H.
  destruct s as [|c r]; [exact H|]. simpl trim_start_rev.
  destruct (is_ws c) eqn:Ec.
  - apply (IH (String.length r)); [simpl in En; lia|reflexivity|].
    simpl in H. unfold removable at 1 in H. rewrite Ec in H. exact H.
  - destruct r as [|c1 r1]; [exact H|].
    destruct (ws2 c1 c) eqn:E2.
    + destruct (ws2_removable _ _ E2) as [Ha Hb].
      apply (IH (String.length r1)); [simpl in En; lia|reflexivity|].
      simpl in H. rewrite Ha, Hb in H. exact H.
    + destruct r1 as [|c2 r2]; [exact H|].
      destruct (ws3 c2 c1 c) eqn:E3; [|exact H].
      destruct (ws3_removable _ _ _ E3) as [Ha [Hb Hd]].
      apply (IH (String.length r2)); [simpl in En; lia|reflexivity|].
      simpl in H. rewrite Ha, Hb, Hd in H. exact H.
Qed.

Lemma rev_str_forall f s acc :
  forall_chars f (rev_str s acc) = forall_chars f s && forall_chars f acc.
Proof.
  revert acc; induction s as [|c r IH]; intros acc; simpl; [reflexivity|].
  rewrite IH. simpl. destruct (f c), (forall_chars f r), (forall_chars f acc); reflexivity.
Qed.

Lemma rev_str_nonempty s c acc : truthy (rev_str s (String c acc)) = true.
Proof. revert c acc; induction s as [|c' r IH]; intros c acc; simpl; [reflexivity | apply IH]. Qed.

(** A string with a byte [trim] cannot remove does not trim to [""]. *)
Lemma trim_not_blank s : forall_chars removable s = false -> truthy (trim s) = true.
Proof.
  intros H. pose proof (trim_start_keeps s H) as Hu.
  unfold trim, trim_end.
  assert (H2 : forall_chars removable (rev_str (trim_start s) "") = false)
    by (rewrite rev_str_forall, Hu; reflexivity).
  pose proof (trim_start_rev_keeps _ H2) as H3.
  destruct (trim_start_rev (rev_str (trim_start s) "")) as [|c r]; [discriminate|].
  simpl. apply rev_str_nonempty.
Qed.

Lemma select_query_not_blank p :
  forall_chars removable (displayLabel p ++ " - " ++ value p) = false.
Proof.
  rewrite forall_chars_app. simpl.
  destruct (forall_chars removable (displayLabel p)); reflexivity.
Qed.

Lemma to_upper_underscore c : Ascii.eqb (to_upper c) "_" = Ascii.eqb c "_".
Proof. destruct c as [[] [] [] [] [] [] [] []]; reflexivity. Qed.

Lemma is_word_to_upper c : is_word (to_upper c) = is_word c.
Proof. destruct c as [[] [] [] [] [] [] [] []]; reflexivity. Qed.

Lemma is_lower_to_upper c : is_lower (to_upper c) = false.
Proof. destruct c as [[] [] [] [] [] [] [] []]; reflexivity. Qed.

Lemma is_lower_word c : implb (is_lower c) (is_word c) = true.
Proof. destruct c as [[] [] [] [] [] [] [] []]; reflexivity. Qed.

Lemma to_lower_to_upper c : to_lower (to_upper c) = to_lower c.
Proof. destruct c as [[] [] [] [] [] [] [] []]; reflexivity. Qed.

Lemma replace_underscores_char c : Ascii.eqb (if Ascii.eqb c "_" then " " else c)%char "_" = false.
Proof. destruct c as [[] [] [] [] [] [] [] []]; reflexivity. Qed.

Lemma capitalize_length b s : String.length (capitalize_words b s) = String.length s.
Proof. revert b; induction s as [|c r IH]; intros b; simpl; [reflexivity | now rewrite IH]. Qed.

Lemma replace_underscores_length s : String.length (replace_underscores s) = String.length s.
Proof. induction s as [|c r IH]; simpl; [reflexivity | now rewrite IH]. Qed.

Lemma replace_underscores_none s :
  forall_chars (fun c => negb (Ascii.eqb c "_")) (replace_underscores s) = true.
Proof. induction s as [|c r IH]; simpl; [reflexivity|]. now rewrite replace_underscores_char, IH. Qed.

Lemma capitalize_keeps_no_underscore b s :
  forall_chars (fun c => negb (Ascii.eqb c "_")) s = true ->
  forall_chars (fun c => negb (Ascii.eqb c "_")) (capitalize_words b s) = true.
Proof.
  revert b; induction s as [|c r IH]; intros b; simpl; [reflexivity|].
  intros H; apply andb_prop in H as [Hc Hr].
  rewrite (IH _ Hr). destruct (is_word c && negb b); [rewrite to_upper_underscore|];
    now rewrite Hc.
Qed.

Lemma capitalize_capitalized b s : words_capitalized b (capitalize_words b s) = true.
Proof.
  revert b; induction s as [|c r IH]; intros b; simpl; [reflexivity|].
  destruct (is_word c) eqn:Ew, b; simpl.
  - now rewrite Ew, IH.
  - now rewrite is_lower_to_upper, is_word_to_upper, Ew, IH.
  - now rewrite Ew, IH.
  - pose proof (is_lower_word c) as Hl. rewrite Ew in Hl.
    destruct (is_lower c); [discriminate|]. now rewrite Ew, IH.
Qed.

Lemma capitalize_lower b s : lower_all (capitalize_words b s) = lower_all s.
Proof.
  revert b; induction s as [|c r IH]; intros b; simpl; [reflexivity|].
  rewrite IH. destruct (is_word c && negb b); [now rewrite to_lower_to_upper | reflexivity].
Qed.

Lemma literal_attribute_not_domain_range n :
  is_literal_attribute n = true -> is_domain_range n = false.
Proof.
  unfold is_literal_attribute, is_domain_range. intros H.
  apply andb_prop in H as [H _]. apply andb_prop in H as [_ H].
  apply String.eqb_eq in H. now rewrite H.
Qed.

Lemma merged_query_twice search u1 u2 :
  merged "query" (u_query u2) (Url.search_of_url (nav_to (updateUrl search u1)))
  = merged "query" (u_query (override u2 u1)) search.
Proof.
  unfold override; cbn [u_query]. destruct (u_query u2) as [v|]; [reflexivity|].
  unfold merged at 1. rewrite updateUrl_after, get_query_params_of.
  apply str_or_present_id.
Qed.

Lemma merged_iri_twice search u1 u2 :
  merged "iri" (u_iri u2) (Url.search_of_url (nav_to (updateUrl search u1)))
  = merged "iri" (u_iri (override u2 u1)) search.
Proof.
  unfold override; cbn [u_iri]. destruct (u_iri u2) as [v|]; [reflexivity|].
  unfold merged at 1. rewrite updateUrl_after, get_iri_params_of.
  apply str_or_present_id.
Qed.

(** [find] returns the first element satisfying the test. *)
Lemma find_first {A} (f : A -> bool) l x :
  find f l = Some x ->
  exists pre post, l = (pre ++ x :: post)%list /\ Forall (fun y => f y = false) pre /\ f x = true.
Proof.
  induction l as [|a l IH]; simpl; [discriminate|].
  destruct (f a) eqn:Ea.
  - intros [= <-]. now exists [], l.
  - intros H. destruct (IH H) as [pre [post [-> [Hp Hx]]]].
    exists (a :: pre), post. split; [reflexivity|]. split; [now constructor|exact Hx].
Qed.

Lemma updateUrl_twice search u1 u2 :
  updateUrl (Url.search_of_url (nav_to (updateUrl search u1))) u2
  = updateUrl search (override u2 u1).
Proof.
  pose proof (updateUrl_nav (Url.search_of_url (nav_to (updateUrl search u1))) u2) as H1.
  pose proof (updateUrl_nav search (override u2 u1)) as H2. cbv zeta in H1, H2.
  rewrite H1, H2, merged_query_twice, merged_iri_twice. reflexivity.
Qed.

Lemma searched_from_timer t0 q0 ks :
  all_changes q0 ks = true ->
  searched {| dq := q0; timer := Some (t0 + 250, q0) |} ks = quiet_queries ((t0, q0) :: ks).
Proof.
  revert t0 q0; induction ks as [|[t q] r IH]; intros t0 q0 Hch; [reflexivity|].
  simpl in Hch. apply andb_prop in Hch as [Hq Hr].
  destruct (String.eqb q q0) eqn:Eq; [discriminate|].
  specialize (IH t q Hr). unfold searched in IH |- *. simpl typing.
  destruct (t0 + 250 <=? t) eqn:Et; unfold fire_due; cbn [timer]; rewrite Et;
    cbv iota; unfold type_query; cbn [dq]; rewrite Eq;
    destruct (typing _ r) as [f2 d2]; cbv iota; rewrite <- app_assoc, IH;
    change (quiet_queries ((t0, q0) :: (t, q) :: r))
      with ((if t0 + 250 <=? t then [q0] else []) ++ quiet_queries ((t, q) :: r))%list;
    now rewrite Et.
Qed.

(** ** [updateUrl]: what the URL keeps *)

(** The location [updateUrl] navigates to has no parameter other than
    [query] and [iri], each at most once and never with an empty value:
    any other parameter of the current location is dropped. *)
Theorem updateUrl_keeps_only_query_iri (search : string) (u : UrlUpdate) :
  let ps := Url.parse (Url.search_of_url (nav_to (updateUrl search u))) in
  Forall (fun kv => (fst kv = "query" \/ fst kv = "iri") /\ snd kv <> "") ps /\
  NoDup (map fst ps).
Proof.
  cbv zeta. rewrite updateUrl_after. unfold params_of.
  destruct (merged "query" (u_query u) search) as [|c q],
           (merged "iri" (u_iri u) search) as [|c' i]; simpl;
    (split; [repeat constructor; (left; reflexivity) || (right; reflexivity) || discriminate|]);
    repeat constructor; simpl; intuition discriminate.
Qed.

(** [updateUrl] reads the [location.search] it is given, the one of the
    render whose closure makes the call. When a second call reads the
    location the first one navigated to, the two calls compose: the result
    is the one of a single update taking each field from [u2] when it gives
    one and from [u1] otherwise. In particular, repeating an update changes
    nothing. *)
Theorem updateUrl_successive (search : string) (u1 u2 : UrlUpdate) :
  updateUrl (Url.search_of_url (nav_to (updateUrl search u1))) u2
  = updateUrl search (override u2 u1) /\
  updateUrl (Url.search_of_url (nav_to (updateUrl search u1))) u1 = updateUrl search u1.
Proof.
  split; [apply updateUrl_twice|]. rewrite updateUrl_twice. f_equal.
  destruct u1 as [[q|] [i|]]; reflexivity.
Qed.

(** ** The search debounce *)

(** When every edit changes the text, the searches that run are: a timer
    still pending from before the first edit if it is due by then, then
    the text of each edit followed by at least 250 ms without another edit,
    and the text of the last edit; a burst of edits less than 250 ms apart
    searches only for its last text. *)
Theorem debounce_searches_quiet_queries (d : Debounce) (t : nat) (q : string)
    (ks : list (nat * string))
    (Hch : all_changes (dq d) ((t, q) :: ks) = true) :
  searched d ((t, q) :: ks) = (fst (fire_due d t) ++ quiet_queries ((t, q) :: ks))%list.
Proof.
  simpl in Hch. apply andb_prop in Hch as [Hq Hr].
  destruct (String.eqb q (dq d)) eqn:Eq; [discriminate|].
  assert (Hf : exists f1, fire_due d t = (f1, {| dq := dq d; timer := None |}) \/
                          fire_due d t = (f1, d)).
  { unfold fire_due. destruct (timer d) as [[dl q1]|]; [|now exists []; right].
    destruct (dl <=? t); [now exists [q1]; left | now exists []; right]. }
  destruct Hf as [f1 [Hf|Hf]];
    unfold searched; simpl typing; rewrite Hf; cbv iota; unfold type_query; cbn [dq];
    rewrite Eq; pose proof (searched_from_timer t q ks Hr) as Hs; unfold searched in Hs;
    destruct (typing _ ks) as [f2 d2]; cbv iota; now rewrite <- app_assoc, Hs.
Qed.

Lemma debounce_searches_quiet_queries_witness :
  all_changes (dq (mount_debounce "")) [(1000, "c"); (1100, "cu"); (1200, "cus"); (1600, "cust")]
  = true /\
  searched (mount_debounce "") [(1000, "c"); (1100, "cu"); (1200, "cus"); (1600, "cust")]
  = [""; "cus"; "cust"].
Proof.
  split; [reflexivity|].
  rewrite (debounce_searches_quiet_queries (mount_debounce "") 1000 "c"
             [(1100, "cu"); (1200, "cus"); (1600, "cust")] eq_refl).
  reflexivity.
Defined.

(** ** Selecting re-triggers the search *)

(** Selecting a property sets the search text to [label - iri], which is
    never blank. The debounced effect runs only when the text changes: if
    the box already held that text, no timer is set and no search runs;
    otherwise a search for the text is scheduled 250 ms later. That search
    issues the request; when the answer arrives the results are replaced,
    the dropdown opens again when there are hits, and the text is written
    into the [query] parameter of the location the search's closure read. *)
Theorem select_then_search (st : State) (p : PropertyItem) (tm : option (nat * string))
    (t : nat) (loc : string) (data : option (list PropertyItem)) :
  let st1 := fst (selectProperty_start st p) in
  let q := displayLabel p ++ " - " ++ value p in
  let d := {| dq := propertySearchQuery st; timer := tm |} in
  propertySearchQuery st1 = q /\
  (propertySearchQuery st = q -> type_query d t q = d) /\
  (propertySearchQuery st <> q -> type_query d t q = {| dq := q; timer := Some (t + 250, q) |}) /\
  searchProperties_start st1 = (st1, [EGet (search_path q)]) /\
  (let st2 := searchProperties_resume st1 q (Resolved data) in
   selectedProperty st2 = Some p /\
   propertySearchResults st2 = list_or_nil data /\
   isPropertyDropdownOpen st2 = (0 <? length (list_or_nil data))) /\
  Url.get "query" (Url.parse (Url.search_of_url
                    (nav_to (updateUrl loc {| u_query := Some q; u_iri := None |}))))
  = Some q.
Proof.
  cbv zeta.
  assert (Hq : propertySearchQuery (fst (selectProperty_start st p))
               = displayLabel p ++ " - " ++ value p) by reflexivity.
  assert (Ht : truthy (displayLabel p ++ " - " ++ value p) = true).
  { destruct (displayLabel p); reflexivity. }
  split; [exact Hq|]. split; [|split; [|split; [|split]]].
  - intros <-. unfold type_query. cbn [dq]. now rewrite String.eqb_refl.
  - intros Hne. unfold type_query. cbn [dq].
    destruct (String.eqb_spec (displayLabel p ++ " - " ++ value p) (propertySearchQuery st))
      as [E|_]; [now symmetry in E|reflexivity].
  - unfold searchProperties_start. rewrite Hq, (trim_not_blank _ (select_query_not_blank p)).
    reflexivity.
  - repeat split.
  - rewrite updateUrl_after, get_query_params_of, present_merged.
    cbn [u_query]. unfold present. now rewrite Ht.
Qed.

(** ** The property card *)

(** No neighbour is shown both as a literal attribute and in the
    domain/range card, and the two together show at most as many entries as
    there are neighbours. *)
Theorem panels_disjoint (st : State) :
  (forall n, In n (getLiteralAttributes st) -> ~ In n (getDomainRange st)) /\
  length (getLiteralAttributes st) + length (getDomainRange st)
  <= length (propertyNeighbors st).
Proof.
  unfold getLiteralAttributes, getDomainRange. split.
  - intros n H1 H2. apply filter_In in H1 as [_ H1]. apply filter_In in H2 as [_ H2].
    now rewrite (literal_attribute_not_domain_range n H1) in H2.
  - induction (propertyNeighbors st) as [|n l IH]; simpl; [lia|].
    destruct (is_literal_attribute n) eqn:E1.
    + rewrite (literal_attribute_not_domain_range n E1). simpl. lia.
    + destruct (is_domain_range n); simpl; lia.
Qed.

(** The name shown for a literal attribute is a tail of its predicate:
    either the whole predicate (when the part after the last [/], then the
    last [#], is empty) or a non-empty tail with no [/] and no [#]; likewise
    each part of a domain/range badge is a tail of the predicate or display
    text, either the whole text or a non-empty tail with no [#]. *)
Theorem neighbor_labels_are_tails (n : Neighbor) :
  (exists pre, predicate n = pre ++ literal_label n) /\
  (literal_label n = predicate n \/
   (truthy (literal_label n) = true /\
    forall_chars (fun c => negb (Ascii.eqb c "/" || Ascii.eqb c "#")) (literal_label n) = true)) /\
  (forall x, (exists pre, x = pre ++ hash_tail_or x) /\
     (hash_tail_or x = x \/
      (truthy (hash_tail_or x) = true /\
       forall_chars (fun c => negb (Ascii.eqb c "#")) (hash_tail_or x) = true))).
Proof.
  split; [|split].
  - unfold literal_label, or_else.
    destruct (truthy _); [|now exists ""].
    destruct (pop_last_suffix (is_char "/") (predicate n)) as [pre1 H1].
    destruct (pop_last_suffix (is_char "#") (pop_last (split_on (is_char "/") (predicate n))))
      as [pre2 H2].
    exists (pre1 ++ pre2). rewrite app_assoc_str, <- H2. exact H1.
  - unfold literal_label, or_else.
    destruct (truthy _) eqn:Et; [right|now left].
    split; [exact Et|].
    pose proof (pop_last_no_sep (fun _ => true) (is_char "/") (predicate n)
                  (forall_chars_true _)) as Ha.
    pose proof (pop_last_no_sep _ (is_char "#") _ Ha) as Hb.
    revert Hb. apply forall_chars_impl. intros c. unfold is_char.
    destruct (Ascii.eqb c "/"), (Ascii.eqb c "#"); simpl; auto.
  - intros x. unfold hash_tail_or, or_else. split.
    + destruct (truthy _); [apply pop_last_suffix | now exists ""].
    + destruct (truthy _) eqn:Et; [right|now left]. split; [exact Et|].
      pose proof (pop_last_no_sep (fun _ => true) (is_char "#") x (forall_chars_true _)) as Hb.
      exact Hb.
Qed.

(** ** Type labels of linked objects *)

(** For a link type other than [uc_column] and [uc_table], the type label
    has the length of the type, contains no [_], starts each word with no
    lower-case letter, and up to case is the type with [_] read as a
    space. *)
Theorem typeLabel_title_case (et : string)
    (H1 : et <> "uc_column") (H2 : et <> "uc_table") :
  String.length (typeLabel et) = String.length et /\
  forall_chars (fun c => negb (Ascii.eqb c "_")) (typeLabel et) = true /\
  words_capitalized false (typeLabel et) = true /\
  lower_all (typeLabel et) = lower_all (replace_underscores et).
Proof.
  unfold typeLabel. apply String.eqb_neq in H1, H2. rewrite H1, H2.
  split; [now rewrite capitalize_length, replace_underscores_length|].
  split; [apply capitalize_keeps_no_underscore, replace_underscores_none|].
  split; [apply capitalize_capitalized | apply capitalize_lower].
Qed.

Lemma typeLabel_title_case_witness :
  "data_contract" <> "uc_column" /\ "data_contract" <> "uc_table" /\
  String.length (typeLabel "data_contract") = String.length "data_contract" /\
  typeLabel "data_contract" = "Data Contract".
Proof.
  split; [discriminate|]. split; [discriminate|].
  split; [|reflexivity].
  exact (proj1 (typeLabel_title_case "data_contract" ltac:(discriminate) ltac:(discriminate))).
Defined.

(** ** The ids offered by the property select *)

(** An id offered by the property select, [contract#schema#property], splits
    back on [#] into its three parts when none of them contains [#]; a link
    with that id and type [data_contract_property] is then named, once the
    contract is fetched, [title#schema.property] (trimmed), the title being
    the contract's name, else its info title, else its id. *)
Theorem property_option_enrich_roundtrip (api : string -> Fetch ContractData) (st : State)
    (p : SchemaProperty) (l : SemanticLink) (data : option ContractData)
    (Hc : truthy (selectedContractId st) = true)
    (Hnc : forall_chars (fun c => negb (is_char "#" c)) (selectedContractId st) = true)
    (Hns : forall_chars (fun c => negb (is_char "#" c)) (selectedSchemaName st) = true)
    (Hnp : forall_chars (fun c => negb (is_char "#" c)) (template_str (sp_name p)) = true)
    (Hid : entity_id l = property_entity_id st p)
    (Hty : entity_type l = "data_contract_property")
    (Hapi : api (contract_path (selectedContractId st)) = Resolved data) :
  split_on (is_char "#") (property_entity_id st p)
  = [selectedContractId st; selectedSchemaName st; template_str (sp_name p)] /\
  entity_name (enrich_one api l)
  = trim (contract_title data (selectedContractId st) ++ "#" ++ selectedSchemaName st
          ++ "." ++ template_str (sp_name p)).
Proof.
  assert (Hs : split_on (is_char "#") (property_entity_id st p)
               = [selectedContractId st; selectedSchemaName st; template_str (sp_name p)]).
  { unfold property_entity_id.
    change (selectedContractId st ++ "#" ++ selectedSchemaName st ++ "#" ++ template_str (sp_name p))
      with (selectedContractId st
            ++ String "#" (selectedSchemaName st ++ String "#" (template_str (sp_name p)))).
    rewrite split_on_app by (reflexivity || exact Hnc).
    rewrite split_on_app by (reflexivity || exact Hns).
    now rewrite split_on_none. }
  split; [exact Hs|].
  unfold enrich_one. rewrite Hty, String.eqb_refl. cbv zeta. rewrite Hid, Hs.
  simpl nth. rewrite Hc, Hapi. reflexivity.
Qed.

Lemma property_option_enrich_roundtrip_witness :
  property_entity_id Examples.ex_assign_state {| sp_name := Some "total" |} = "c1#orders#total" /\
  entity_name (enrich_one Examples.ex_api_c1
                 (Examples.ex_link "c1#orders#total" "data_contract_property"))
  = "Sales#orders.total".
Proof.
  split; [reflexivity|].
  exact (proj2 (property_option_enrich_roundtrip Examples.ex_api_c1 Examples.ex_assign_state
                  {| sp_name := Some "total" |}
                  (Examples.ex_link "c1#orders#total" "data_contract_property")
                  (Some {| c_name := None; c_info_title := Some "Sales" |})
                  eq_refl eq_refl eq_refl eq_refl eq_refl eq_refl eq_refl)).
Defined.

(** ** Linking a Unity Catalog column *)

(** Choosing a column in the catalog dialog does nothing when the asset has
    no column name or no property is selected; otherwise it posts a
    [uc_column] link from the asset's full name to the selected IRI. On
    success it closes both dialogs and selects the property again, keeping
    the chosen target type; on failure it shows the error (or the generic
    message) and changes nothing. *)
Theorem handleUCColumnSelect_spec (post : LinkPayload -> PostOutcome) (st : State)
    (uc : bool) (asset : UCAssetInfo) :
  ((truthy (str_or (column_name asset) "") = false \/ selectedProperty st = None) ->
   handleUCColumnSelect post st uc asset = (st, uc, [])) /\
  (forall sp, truthy (str_or (column_name asset) "") = true -> selectedProperty st = Some sp ->
   let payload := {| p_entity_id := full_name asset; p_entity_type := "uc_column";
                     p_iri := value sp |} in
   match post_error (post payload) with
   | Some msg =>
       handleUCColumnSelect post st uc asset
       = (st, uc, [EPost links_post_path payload;
                   EToast VDestructive (or_else msg "search:properties.messages.assignFailed")])
   | None =>
       let '(st', uc', effs) := handleUCColumnSelect post st uc asset in
       uc' = false /\
       assignDialogOpen st' = false /\
       assignTargetType st' = assignTargetType st /\
       selectedProperty st' = Some sp /\
       effs = [EPost links_post_path payload;
               EToast VDefault "search:properties.messages.linkedSuccess";
               EGet (neighbors_path (value sp))]
   end).
Proof.
  split.
  - intros [H|H]; unfold handleUCColumnSelect; rewrite ?H; [reflexivity|].
    destruct (truthy _); reflexivity.
  - intros sp Hc Hs. cbv zeta. unfold handleUCColumnSelect. rewrite Hc, Hs.
    simpl negb; cbv iota. unfold post_error.
    destruct (post _) as [err|msg]; [|reflexivity].
    destruct (truthy (str_or err "")); [reflexivity|].
    repeat split.
Qed.

(** ** Guards of [handleAssign] and the Assign button *)

(** [handleAssign] does nothing without a selected property, without a
    target type, or for the [uc_column] target (which goes through the
    catalog dialog); the Assign button is disabled after any change above
    the property choice, and when it is enabled with a property selected,
    a click posts the chosen property id. *)
Theorem handleAssign_guards (post : LinkPayload -> PostOutcome) (st : State) (v : string) :
  (selectedProperty st = None -> handleAssign post st = (st, [])) /\
  (assignTargetType st = "" -> handleAssign post st = (st, [])) /\
  (assignTargetType st = "uc_column" -> handleAssign post st = (st, [])) /\
  assign_enabled (handleAssignTargetTypeChange st v) = false /\
  assign_enabled (onContractChange st v) = false /\
  assign_enabled (onSchemaChange st v) = false /\
  (forall sp, selectedProperty st = Some sp -> assign_enabled st = true ->
   exists effs, snd (handleAssign post st)
                = EPost links_post_path
                    {| p_entity_id := selectedPropertyEntityId st;
                       p_entity_type := "data_contract_property"; p_iri := value sp |} :: effs).
Proof.
  split; [|split; [|split; [|split; [|split; [|split]]]]].
  - intros H. unfold handleAssign. now rewrite H.
  - intros H. unfold handleAssign. rewrite H. now destruct (selectedProperty st).
  - intros H. unfold handleAssign. rewrite H. now destruct (selectedProperty st).
  - unfold assign_enabled. simpl. now rewrite andb_false_r.
  - unfold assign_enabled. simpl. now rewrite andb_false_r.
  - unfold assign_enabled. simpl. now rewrite andb_false_r.
  - intros sp Hs He. unfold assign_enabled in He. apply andb_prop in He as [Ht Hi].
    apply String.eqb_eq in Ht. unfold handleAssign. rewrite Hs, Ht, String.eqb_refl.
    change (truthy "data_contract_property") with true.
    change (String.eqb "data_contract_property" "uc_column") with false.
    simpl negb. cbv iota beta zeta. rewrite Hi. simpl negb. cbv iota.
    destruct (post _) as [err|msg].
    + destruct (truthy (str_or err "")).
      * eexists. reflexivity.
      * destruct (selectProperty_start _ sp). eexists. reflexivity.
    + eexists. reflexivity.
Qed.

(** ** Loading a location without [iri] *)

(** When the location has no non-empty [iri] parameter, the URL effect issues
    no request and changes only the search text, which takes the [query]
    parameter when that is non-empty and differs from [initialQuery]. *)
Theorem loadFromUrl_without_iri (initialQuery : string) (st : State)
    (res : Fetch (list PropertyItem))
    (Hi : present (Url.get "iri" (url_params st)) = None) :
  loadFromUrl initialQuery st res =
  (match present (Url.get "query" (url_params st)) with
   | Some q => if String.eqb q initialQuery then st else setPropertySearchQuery st q
   | None => st
   end, []).
Proof.
  unfold loadFromUrl. unfold url_params in Hi |- *.
  set (st1 := match Url.get "query" (Url.parse (locationSearch st)) with
              | Some q => if truthy q && negb (String.eqb q initialQuery)
                          then setPropertySearchQuery st q else st
              | None => st
              end).
  assert (E : st1 = match present (Url.get "query" (Url.parse (locationSearch st))) with
                    | Some q => if String.eqb q initialQuery then st
                                else setPropertySearchQuery st q
                    | None => st
                    end).
  { subst st1. destruct (Url.get "query" _) as [q|]; [|reflexivity].
    simpl. destruct (truthy q); [|reflexivity].
    destruct (String.eqb q initialQuery); reflexivity. }
  rewrite <- E.
  destruct (Url.get "iri" _) as [i|]; [|reflexivity].
  simpl in Hi. destruct (truthy i); [discriminate|reflexivity].
Qed.

Lemma loadFromUrl_without_iri_witness :
  present (Url.get "iri" (url_params (initial "" None "?query=abc&foo=1"))) = None /\
  propertySearchQuery (fst (loadFromUrl "" (initial "" None "?query=abc&foo=1") Rejected)) = "abc".
Proof.
  split; [reflexivity|].
  rewrite (loadFromUrl_without_iri "" (initial "" None "?query=abc&foo=1") Rejected eq_refl).
  reflexivity.
Defined.

(** ** Enrichment works link by link *)

(** Enrichment treats each link on its own: enriching two lists one after
    the other gives the enrichment of the concatenation; and the name of a
    link that is neither a contract nor a contract property does not depend
    on what the server answers. *)
Theorem enrich_per_link (api api' : string -> Fetch ContractData) (l1 l2 : list SemanticLink) :
  enrichSemanticLinksWithNames api (l1 ++ l2)
  = (enrichSemanticLinksWithNames api l1 ++ enrichSemanticLinksWithNames api l2)%list /\
  (forall l, entity_type l <> "data_contract_property" -> entity_type l <> "data_contract" ->
   enrich_one api l = enrich_one api' l).
Proof.
  split.
  - unfold enrichSemanticLinksWithNames. rewrite !enrich_loop_app. simpl app.
    apply map_app.
  - intros l H1 H2. unfold enrich_one.
    apply String.eqb_neq in H1, H2. rewrite H1, H2. reflexivity.
Qed.

(** ** The contract, schema and property choices *)

(** The contract detail is fetched only for a non-empty contract id; with no
    id, or when the fetch fails, there is no schema and no property to
    choose. A property is offered only from a schema of the loaded contract
    whose name (or, when that is empty or missing, physical name) is the
    chosen schema name: the first such schema. *)
Theorem contract_choices (cid sel : string) (res : Fetch ContractDetail)
    (d : option ContractDetail) :
  (cid = "" -> contractDetail_effect cid res = (None, [])) /\
  (cid <> "" -> snd (contractDetail_effect cid res) = [EGet (contract_path cid)] /\
                fst (contractDetail_effect cid res)
                = match res with Resolved data => data | Rejected => None end) /\
  (res = Rejected -> schemas (fst (contractDetail_effect cid res)) = [] /\
                     properties (fst (contractDetail_effect cid res)) sel = []) /\
  (properties d sel <> [] ->
   exists pre s post,
     schemaObjects d = (pre ++ s :: post)%list /\
     Forall (fun y => schema_display y <> Some sel) pre /\
     schema_display s = Some sel /\
     properties d sel = list_or_nil (so_properties s)).
Proof.
  split; [|split; [|split]].
  - intros ->. reflexivity.
  - intros H. unfold contractDetail_effect. rewrite (truthy_nonempty _ H).
    destruct res; split; reflexivity.
  - intros ->. unfold contractDetail_effect. destruct (truthy cid); split; reflexivity.
  - unfold properties, selectedSchema. intros H.
    destruct (find _ (schemaObjects d)) as [s|] eqn:Ef; [|contradiction].
    apply find_first in Ef as [pre [post [Hl [Hpre Hm]]]].
    exists pre, s, post. split; [exact Hl|]. split.
    + revert Hpre. apply Forall_impl. intros y Hy E. rewrite E, String.eqb_refl in Hy.
      discriminate.
    + split; [|reflexivity].
      destruct (schema_display s) as [n|]; [|discriminate].
      apply String.eqb_eq in Hm. now subst.
Qed.

(** ** What the page shows *)

(** After [clearSearch] the page shows neither the clear button, nor the
    dropdown, nor the property card; right after selecting a property it
    shows the clear button and the property card, and no dropdown. Focusing
    the search box, or a search answer, shows the dropdown exactly when
    there are results; a failed search hides it. *)
Theorem render_visibility (st : State) (p : PropertyItem) (q : string)
    (data : option (list PropertyItem)) :
  let c := clearSearch st in
  clear_button_visible c = false /\ dropdown_visible c = false /\
  details_visible c = false /\ domain_range_visible c = false /\
  let s := fst (selectProperty_start st p) in
  clear_button_visible s = true /\ dropdown_visible s = false /\ details_visible s = true /\
  dropdown_visible (onFocus st) = (0 <? length (propertySearchResults st)) /\
  dropdown_visible (searchProperties_resume st q (Resolved data))
  = (0 <? length (list_or_nil data)) /\
  dropdown_visible (searchProperties_resume st q Rejected) = false.
Proof.
  cbv zeta. repeat split.
  - unfold clear_button_visible. rewrite selectProperty_start_eq. simpl fst.
    cbn [propertySearchQuery updateUrlSt navigate setLocationSearch setIsPropertyDropdownOpen
         setPropertySearchQuery].
    destruct (displayLabel p); reflexivity.
  - unfold dropdown_visible, onFocus. simpl. now rewrite andb_diag.
  - unfold dropdown_visible. simpl. now rewrite andb_diag.
Qed.
